(** * Airflow / Snowflake ETL runner: shallow embedding of [include/etl_runner.py]

    The runner talks to three collaborators that are not part of the
    repository: the Airflow connection store, the Snowflake driver and the
    wall clock.  They are gathered in a [Platform] record; the warehouse
    tables the runner itself reads and writes (master table, audit table,
    run-id sequence) are explicit state.  Every call the runner makes on the
    session is appended to a trace, so that ordering properties ("before any
    audit insert", "closed at the end") can be stated. *)

From Stdlib Require Import String Ascii List NArith ZArith Lia Bool DecimalString.
From Stdlib Require Import Sorted Permutation.
Import ListNotations.
Open Scope string_scope.

(** ** Python [str] operations used by the runner

    A Python [str] is modelled as a [string] whose characters are the code
    points below 256. *)
Module PyStr.

(** [str.isspace] on one code point below 256: TAB..CR, FS..US, SPACE,
    NEL (0x85) and NBSP (0xA0). *)
Definition is_space (c : ascii) : bool :=
  let n := nat_of_ascii c in
  (Nat.leb 9 n && Nat.leb n 13) || (Nat.leb 28 n && Nat.leb n 32)
  || Nat.eqb n 133 || Nat.eqb n 160.

Definition is_empty (s : string) : bool :=
  match s with EmptyString => true | String _ _ => false end.

Fixpoint all_space (s : string) : bool :=
  match s with
  | EmptyString => true
  | String c s' => is_space c && all_space s'
  end.

Fixpoint lstrip (s : string) : string :=
  match s with
  | EmptyString => EmptyString
  | String c s' => if is_space c then lstrip s' else s
  end.

Fixpoint rstrip (s : string) : string :=
  match s with
  | EmptyString => EmptyString
  | String c s' =>
      let r := rstrip s' in
      if is_space c && is_empty r then EmptyString else String c r
  end.

(** [s.strip()] *)
Definition strip (s : string) : string := rstrip (lstrip s).

Fixpoint drop (n : nat) (s : string) : string :=
  match n, s with
  | O, _ => s
  | S _, EmptyString => EmptyString
  | S k, String _ s' => drop k s'
  end.

(** [s.replace(old, new)]: left-to-right scan, non-overlapping matches.
    [skip] counts the characters of a match still to be passed over.  For an
    empty [old] Python puts [new] before every character and at the end. *)
Fixpoint replace_from (old new : string) (skip : nat) (s : string) : string :=
  match s with
  | EmptyString =>
      match skip with
      | O => if is_empty old then new else EmptyString
      | S _ => EmptyString
      end
  | String c s' =>
      match skip with
      | S k => replace_from old new k s'
      | O =>
          if is_empty old then new ++ String c (replace_from old new 0 s')
          else if prefix old s
               then new ++ replace_from old new (String.length old - 1) s'
               else String c (replace_from old new 0 s')
      end
  end.

Definition replace (old new s : string) : string := replace_from old new 0 s.

(** [str(n)] for an [int]. *)
Definition str_of_int (n : Z) : string := NilZero.string_of_int (Z.to_int n).

Definition digit (n : N) : ascii := ascii_of_N (48 + n mod 10).

(** ["%02d"], ["%04d"] and ["%06d"] on a value inside the field's range. *)
Definition pad2 (n : N) : string :=
  String (digit (n / 10)) (String (digit n) EmptyString).

Definition pad4 (n : N) : string :=
  String (digit (n / 1000)) (String (digit (n / 100)) (pad2 n)).

Definition pad6 (n : N) : string :=
  String (digit (n / 100000)) (String (digit (n / 10000)) (pad4 n)).

(** Substring test, used to state what a text contains. *)
Fixpoint contains (needle s : string) : bool :=
  prefix needle s ||
  match s with
  | EmptyString => false
  | String _ s' => contains needle s'
  end.

End PyStr.

Example strip_ex :
  PyStr.strip ("  JOB_01 " ++ String (ascii_of_nat 9) EmptyString) = "JOB_01".
Proof. reflexivity. Qed.

Example replace_ex :
  PyStr.replace "$BATCH_TS" "'t'" "a = $BATCH_TS and b < $BATCH_TS;"
  = "a = 't' and b < 't';".
Proof. reflexivity. Qed.

Example replace_empty_old_ex : PyStr.replace "" "-" "ab" = "-a-b-".
Proof. reflexivity. Qed.

Example str_of_int_ex : PyStr.str_of_int 1042 = "1042" /\ PyStr.str_of_int 0 = "0".
Proof. split; reflexivity. Qed.

(** ** Data model *)

(** [StepRow]: one row of the master table, as the dataclass types it. *)
Record StepRow := mkStepRow {
  project_name : string;
  job_code : string;
  job_name : string;
  step_number : Z;
  step_desc : string;
  etl_logic : option string;
  src_db : option string;
  src_schema : option string;
  src_table : option string;
  tgt_db : option string;
  tgt_schema : option string;
  tgt_table : option string
}.

(** One row of the audit table; the column order is the one of the INSERT.
    Timestamps are values of the warehouse clock. *)
Record AuditRecord := mkAuditRecord {
  a_run_id : Z;
  a_project_name : string;
  a_job_code : string;
  a_job_name : string;
  a_step_number : Z;
  a_step_desc : string;
  a_src_db : option string;
  a_src_schema : option string;
  a_src_table : option string;
  a_tgt_db : option string;
  a_tgt_schema : option string;
  a_tgt_table : option string;
  run_start_date : option Z;
  run_end_date : option Z;
  load_status : string;
  error_message : option string
}.

(** Python exceptions: the class, as far as the runner's [except] clauses
    tell classes apart, and [str(e)]. *)
Inductive ExnClass := ValueError | RuntimeError | TypeError | DriverError.

Record Exn := mkExn { exn_class : ExnClass; exn_str : string }.

Definition is_TypeError (e : Exn) : bool :=
  match exn_class e with TypeError => true | _ => false end.

(** An aware [datetime] in UTC. *)
Record DateTime := mkDateTime {
  year : N; month : N; day : N;
  hour : N; minute : N; second : N; microsecond : N
}.

(** [dt.replace(microsecond=0)] *)
Definition replace_microsecond_0 (dt : DateTime) : DateTime :=
  mkDateTime (year dt) (month dt) (day dt) (hour dt) (minute dt) (second dt) 0.

(** [dt.isoformat(sep)] for a UTC-aware value: the fraction is printed only
    when the microseconds are not zero, the offset is always [+00:00]. *)
Definition isoformat (sep : string) (dt : DateTime) : string :=
  PyStr.pad4 (year dt) ++ "-" ++ PyStr.pad2 (month dt) ++ "-" ++ PyStr.pad2 (day dt)
  ++ sep
  ++ PyStr.pad2 (hour dt) ++ ":" ++ PyStr.pad2 (minute dt) ++ ":" ++ PyStr.pad2 (second dt)
  ++ (if N.eqb (microsecond dt) 0 then "" else "." ++ PyStr.pad6 (microsecond dt))
  ++ "+00:00".

Example isoformat_ex :
  isoformat " " (mkDateTime 2026 1 5 7 30 9 0) = "2026-01-05 07:30:09+00:00"
  /\ isoformat "T" (mkDateTime 2026 1 5 7 30 9 4210) = "2026-01-05T07:30:09.004210+00:00".
Proof. split; reflexivity. Qed.

(** An Airflow connection record.  [extra] is the decoded Extra JSON object
    ([extra_dejson]), an association list read with [dict.get]. *)
Record Connection := mkConnection {
  login : option string;
  password : option string;
  host : option string;
  extra : list (string * string)
}.

Fixpoint dict_get (d : list (string * string)) (k : string) : option string :=
  match d with
  | [] => None
  | (k', v) :: d' => if String.eqb k' k then Some v else dict_get d' k
  end.

(** The keyword arguments of [snowflake.connector.connect]
    ([autocommit=True] is constant). *)
Record ConnectArgs := mkConnectArgs {
  ca_user : option string;
  ca_password : option string;
  ca_account : string;
  ca_warehouse : option string;
  ca_database : option string;
  ca_schema : option string;
  ca_role : option string
}.

(** Statements the runner sends through [cur.execute(sql, params)], named
    after their SQL text and carrying their bound parameters. *)
Inductive Statement :=
| SelCount (jc : string)
| SelNextVal
| SelSteps (jc : string)
| InsAudit (run_id : Z) (step : StepRow)
| UpdAudit (run_id : Z) (step : StepRow) (status : string) (err : option string).

(** What a cursor holds after [execute]. *)
Inductive ResultSet :=
| IntRows (rows : list (option Z))
| StepRows (rows : list StepRow)
| NoRows.

(** Calls observed from outside the runner, in program order. *)
Inductive Event :=
| EvNow
| EvConnect (args : ConnectArgs)
| EvCursor
| EvExecute (s : Statement)
| EvExecuteMulti (sql : string)
| EvExecuteString (sql : string)
| EvCursorClose
| EvConnectionClose.

(** ** The collaborators and the warehouse *)

(** What the runner does not own.  [Env] is the rest of the warehouse (the
    tables the steps' SQL works on) together with the clocks; only the
    steps' SQL changes it.  A call that returns [Some e] raises [e]. *)
Record Platform (Env : Type) := mkPlatform {
  (** [datetime.now(timezone.utc)] *)
  utc_now : Env -> DateTime;
  (** [BaseHook.get_connection(conn_id)] *)
  get_connection : string -> Exn + Connection;
  (** [snowflake.connector.connect(...)] *)
  connect : ConnectArgs -> option Exn;
  (** [CURRENT_TIMESTAMP()] *)
  current_timestamp : Env -> Z;
  (** a failure of [cur.execute] on one of the runner's own statements *)
  statement_fault : Statement -> Env -> option Exn;
  (** [cur.execute(sql, multi_statement_count=0)] *)
  execute_multi : string -> Env -> option Exn * Env;
  (** [conn.execute_string(sql)] *)
  execute_string : string -> Env -> option Exn * Env;
  (** [cur.close()] and [conn.close()] *)
  cursor_close : Env -> option Exn;
  connection_close : Env -> option Exn;
  (** [conn.cursor()] *)
  cursor_fault : Env -> option Exn
}.

Arguments utc_now {Env} _ _.
Arguments get_connection {Env} _ _.
Arguments connect {Env} _ _.
Arguments current_timestamp {Env} _ _.
Arguments statement_fault {Env} _ _ _.
Arguments execute_multi {Env} _ _ _.
Arguments execute_string {Env} _ _ _.
Arguments cursor_close {Env} _ _.
Arguments connection_close {Env} _ _.
Arguments cursor_fault {Env} _ _.

(** The state a run works on: the control tables, the run-id sequence, the
    rest of the warehouse and the calls made so far. *)
Record World (Env : Type) := mkWorld {
  env : Env;
  master : list StepRow;
  audit : list AuditRecord;
  seq : Z;
  trace : list Event
}.

Arguments mkWorld {Env} _ _ _ _ _.
Arguments env {Env} _.
Arguments master {Env} _.
Arguments audit {Env} _.
Arguments seq {Env} _.
Arguments trace {Env} _.

(** Double quote, for the messages that contain one. *)
Definition dq : string := String (ascii_of_nat 34) EmptyString.

Section Runner.

Context {Env : Type} (P : Platform Env).

Local Abbreviation World := (World Env).

(** State and exception monad of the runner. *)
Definition M (A : Type) : Type := World -> (Exn + A) * World.

Definition ret {A} (a : A) : M A := fun w => (inr a, w).

Definition raise {A} (e : Exn) : M A := fun w => (inl e, w).

Definition bind {A B} (m : M A) (k : A -> M B) : M B :=
  fun w =>
    match m w with
    | (inl e, w') => (inl e, w')
    | (inr a, w') => k a w'
    end.

(** [try: m except Exception as e: h e] *)
Definition try_except {A} (m : M A) (h : Exn -> M A) : M A :=
  fun w =>
    match m w with
    | (inl e, w') => h e w'
    | (inr a, w') => (inr a, w')
    end.

(** [try: m except Exception: pass] *)
Definition try_pass {A} (m : M A) : M unit :=
  fun w => (inr tt, snd (m w)).

(** [try: m finally: f]; an exception of [f] replaces the outcome of [m]. *)
Definition try_finally {A} (m : M A) (f : M unit) : M A :=
  fun w =>
    let (r, w1) := m w in
    match f w1 with
    | (inl e, w2) => (inl e, w2)
    | (inr _, w2) => (r, w2)
    end.

Notation "x <- m ;; k" := (bind m (fun x => k))
  (at level 61, m at next level, right associativity).
Notation "m ;; k" := (bind m (fun _ => k))
  (at level 61, right associativity).

Definition set_env (e : Env) (w : World) : World :=
  mkWorld e (master w) (audit w) (seq w) (trace w).
Definition set_audit (a : list AuditRecord) (w : World) : World :=
  mkWorld (env w) (master w) a (seq w) (trace w).
Definition set_seq (n : Z) (w : World) : World :=
  mkWorld (env w) (master w) (audit w) n (trace w).
Definition emit (ev : Event) (w : World) : World :=
  mkWorld (env w) (master w) (audit w) (seq w) (trace w ++ [ev])%list.

(** *** The warehouse's answer to the runner's statements *)

Definition rows_of_job (jc : string) (rows : list StepRow) : list StepRow :=
  filter (fun r => String.eqb (job_code r) jc) rows.

Fixpoint insert_by_step_number (r : StepRow) (l : list StepRow) : list StepRow :=
  match l with
  | [] => [r]
  | x :: l' =>
      if (step_number r <=? step_number x)%Z then r :: l
      else x :: insert_by_step_number r l'
  end.

(** [ORDER BY STEP_NUMBER]; ties keep the table's order. *)
Definition order_by_step_number (l : list StepRow) : list StepRow :=
  fold_right insert_by_step_number [] l.

(** The row of the INSERT: [CURRENT_TIMESTAMP(), NULL, 'STARTED', NULL]. *)
Definition started_record (now : Z) (run_id : Z) (step : StepRow) : AuditRecord :=
  mkAuditRecord run_id (project_name step) (job_code step) (job_name step)
    (step_number step) (step_desc step)
    (src_db step) (src_schema step) (src_table step)
    (tgt_db step) (tgt_schema step) (tgt_table step)
    (Some now) None "STARTED" None.

(** The WHERE clause of the UPDATE. *)
Definition update_matches (run_id : Z) (jc : string) (sn : Z) (r : AuditRecord) : bool :=
  (a_run_id r =? run_id)%Z && String.eqb (a_job_code r) jc && (a_step_number r =? sn)%Z.

(** The SET clause of the UPDATE. *)
Definition set_terminal (now : Z) (status : string) (err : option string)
    (r : AuditRecord) : AuditRecord :=
  mkAuditRecord (a_run_id r) (a_project_name r) (a_job_code r) (a_job_name r)
    (a_step_number r) (a_step_desc r)
    (a_src_db r) (a_src_schema r) (a_src_table r)
    (a_tgt_db r) (a_tgt_schema r) (a_tgt_table r)
    (run_start_date r) (Some now) status err.

Definition apply_update (now : Z) (run_id : Z) (step : StepRow)
    (status : string) (err : option string) (r : AuditRecord) : AuditRecord :=
  if update_matches run_id (job_code step) (step_number step) r
  then set_terminal now status err r else r.

Definition perform (s : Statement) (w : World) : ResultSet * World :=
  match s with
  | SelCount jc =>
      (IntRows [Some (Z.of_nat (List.length (rows_of_job jc (master w))))], w)
  | SelNextVal =>
      (IntRows [Some (seq w)], set_seq (seq w + 1)%Z w)
  | SelSteps jc =>
      (StepRows (order_by_step_number (rows_of_job jc (master w))), w)
  | InsAudit run_id step =>
      (NoRows,
       set_audit (audit w ++ [started_record (current_timestamp P (env w)) run_id step])%list w)
  | UpdAudit run_id step status err =>
      (NoRows,
       set_audit (map (apply_update (current_timestamp P (env w)) run_id step status err)
                      (audit w)) w)
  end.

(** *** Driver calls *)

(** [cur.execute(sql, params)] for one of the runner's statements. *)
Definition cur_execute (s : Statement) : M ResultSet :=
  fun w =>
    let w1 := emit (EvExecute s) w in
    match statement_fault P s (env w) with
    | Some e => (inl e, w1)
    | None => let (rs, w2) := perform s w1 in (inr rs, w2)
    end.

(** A submission of SQL text: the driver's answer decides the outcome and
    the warehouse left behind. *)
Definition run_sql (ev : Event) (f : Env -> option Exn * Env) : M unit :=
  fun w =>
    let w1 := emit ev w in
    match f (env w) with
    | (Some e, env') => (inl e, set_env env' w1)
    | (None, env') => (inr tt, set_env env' w1)
    end.

(** [cur.execute(sql_text, multi_statement_count=0)] *)
Definition cur_execute_multi (sql : string) : M unit :=
  run_sql (EvExecuteMulti sql) (execute_multi P sql).

(** [conn.execute_string(sql_text)] *)
Definition conn_execute_string (sql : string) : M unit :=
  run_sql (EvExecuteString sql) (execute_string P sql).

(** A call that leaves the warehouse as it is and may raise. *)
Definition call (ev : Event) (fault : option Exn) : M unit :=
  fun w =>
    match fault with
    | Some e => (inl e, emit ev w)
    | None => (inr tt, emit ev w)
    end.

(** [conn.cursor()]; like any call on the driver it may raise. *)
Definition conn_cursor : M unit :=
  fun w => call EvCursor (cursor_fault P (env w)) w.

Definition cur_close : M unit := fun w => call EvCursorClose (cursor_close P (env w)) w.

Definition conn_close : M unit :=
  fun w => call EvConnectionClose (connection_close P (env w)) w.

(** [datetime.now(timezone.utc)] *)
Definition datetime_now_utc : M DateTime :=
  fun w => (inr (utc_now P (env w)), emit EvNow w).

Definition fetchone (rs : ResultSet) : option (option Z) :=
  match rs with
  | IntRows (r :: _) => Some r
  | _ => None
  end.

(** [cur.fetchall() or []] *)
Definition fetchall (rs : ResultSet) : list StepRow :=
  match rs with
  | StepRows rows => rows
  | _ => []
  end.

(** Truth value of an optional string: [None] and [""] are false. *)
Definition truthy (x : option string) : bool :=
  match x with
  | Some s => negb (PyStr.is_empty s)
  | None => false
  end.

(** [x or y] *)
Definition py_or (x y : option string) : option string :=
  if truthy x then x else y.

(** *** The runner, function by function *)

Definition missing_account_message (conn_id : string) : string :=
  "Airflow connection '" ++ conn_id ++ "' is missing Snowflake 'account'. "
  ++ "Set it in Extra as {" ++ dq ++ "account" ++ dq ++ ":" ++ dq ++ "..." ++ dq
  ++ "} or in the Host field.".

Definition connect_args (c : Connection) (account : string) : ConnectArgs :=
  mkConnectArgs (login c) (password c) account
    (dict_get (extra c) "warehouse") (dict_get (extra c) "database")
    (dict_get (extra c) "schema") (dict_get (extra c) "role").

Definition _get_snowflake_connection (conn_id : string) : M unit :=
  fun w =>
    match get_connection P conn_id with
    | inl e => (inl e, w)
    | inr c =>
        let account := py_or (dict_get (extra c) "account") (host c) in
        if negb (truthy account)
        then raise (mkExn ValueError (missing_account_message conn_id)) w
        else
          let args := connect_args c (match account with Some a => a | None => "" end) in
          call (EvConnect args) (connect P args) w
    end.

Definition _fetch_one_int (s : Statement) : M Z :=
  rs <- cur_execute s ;;
  match fetchone rs with
  | Some (Some n) => ret n
  | _ => raise (mkExn RuntimeError "Expected one integer result but got none.")
  end.

Definition _fetch_steps (job_code : string) : M (list StepRow) :=
  rs <- cur_execute (SelSteps job_code) ;;
  ret (fetchall rs).

Definition _audit_insert_started (run_id : Z) (step : StepRow) : M unit :=
  cur_execute (InsAudit run_id step) ;; ret tt.

Definition _audit_update (run_id : Z) (step : StepRow) (status : string)
    (error_message : option string) : M unit :=
  cur_execute (UpdAudit run_id step status error_message) ;; ret tt.

Definition _execute_sql_block (sql_text : string) : M unit :=
  let sql_text := PyStr.strip sql_text in
  if PyStr.is_empty sql_text then ret tt
  else
    try_except (cur_execute_multi sql_text)
      (fun e => if is_TypeError e then conn_execute_string sql_text else raise e).

Definition BATCH_TS_TOKEN : string := "$BATCH_TS".

(** [f"'{batch_ts_literal}'"] *)
Definition quoted (batch_ts_literal : string) : string :=
  "'" ++ batch_ts_literal ++ "'".

(** [step.etl_logic and step.etl_logic.strip()] *)
Definition has_logic (step : StepRow) : bool :=
  match etl_logic step with
  | Some l => negb (PyStr.is_empty l) && negb (PyStr.is_empty (PyStr.strip l))
  | None => false
  end.

(** Lines 252-256: the step's own SQL. *)
Definition run_step_sql (batch_ts_literal : string) (step : StepRow) : M unit :=
  match etl_logic step with
  | Some l =>
      if has_logic step
      then _execute_sql_block (PyStr.replace BATCH_TS_TOKEN (quoted batch_ts_literal) l)
      else ret tt
  | None => ret tt
  end.

Definition job_failed_message (job_code : string) (run_id : Z) (step : StepRow)
    (err : string) : string :=
  "JOB FAILED | JOB=" ++ job_code ++ " | RUN_ID=" ++ PyStr.str_of_int run_id
  ++ " | STEP=" ++ PyStr.str_of_int (step_number step)
  ++ " | DESC=" ++ step_desc step ++ " | ERROR=" ++ err.

(** Body of the [for step in steps] loop. *)
Definition run_step (job_code : string) (run_id : Z) (batch_ts_literal : string)
    (step : StepRow) : M unit :=
  _audit_insert_started run_id step ;;
  try_except
    (run_step_sql batch_ts_literal step ;;
     _audit_update run_id step "SUCCESS" None)
    (fun e =>
       let err := exn_str e in
       _audit_update run_id step "FAILED" (Some err) ;;
       raise (mkExn RuntimeError (job_failed_message job_code run_id step err))).

Fixpoint run_steps (job_code : string) (run_id : Z) (batch_ts_literal : string)
    (steps : list StepRow) : M unit :=
  match steps with
  | [] => ret tt
  | step :: rest =>
      run_step job_code run_id batch_ts_literal step ;;
      run_steps job_code run_id batch_ts_literal rest
  end.

Definition success_message (job_code : string) (run_id : Z) (batch_ts : DateTime) : string :=
  "SUCCESS: JOB_CODE=" ++ job_code ++ ", RUN_ID=" ++ PyStr.str_of_int run_id
  ++ ", BATCH_TS=" ++ isoformat "T" batch_ts.

(** The [try] block of [run_etl_job]. *)
Definition run_job_body (job_code : string) (batch_ts : DateTime) : M string :=
  steps_found <- _fetch_one_int (SelCount job_code) ;;
  if (steps_found =? 0)%Z
  then raise (mkExn RuntimeError ("No steps found for JOB_CODE=" ++ job_code))
  else
    run_id <- _fetch_one_int SelNextVal ;;
    steps <- _fetch_steps job_code ;;
    run_steps job_code run_id (isoformat " " batch_ts) steps ;;
    ret (success_message job_code run_id batch_ts).

(** The [finally] block. *)
Definition release : M unit :=
  try_pass cur_close ;; try_pass conn_close.

(** The entry point.  [last_sql] is assigned and never read, and [run_id]
    is only read after its assignment from the sequence; neither needs a
    cell of its own here. *)
Definition run_etl_job (job_code : string) (snowflake_conn_id : string) : M string :=
  if PyStr.is_empty job_code || PyStr.is_empty (PyStr.strip job_code)
  then raise (mkExn ValueError "job_code is required")
  else
    let job_code := PyStr.strip job_code in
    now <- datetime_now_utc ;;
    let batch_ts := replace_microsecond_0 now in
    _get_snowflake_connection snowflake_conn_id ;;
    conn_cursor ;;
    try_finally (run_job_body job_code batch_ts) release.

(** *** Vocabulary of the statements about runs *)

(** A world that holds a given warehouse and nothing else. *)
Definition bare (e : Env) : World := mkWorld e [] [] 0%Z [].

(** What a step's own SQL does to the warehouse [e]: the exception it
    raises, if any, and the warehouse it leaves. *)
Definition step_sql_outcome (batch_ts_literal : string) (step : StepRow) (e : Env)
    : option Exn * Env :=
  let (r, w) := run_step_sql batch_ts_literal step (bare e) in
  (match r with inl x => Some x | inr _ => None end, env w).

(** The warehouse after the SQL of [steps], run in order from [e]. *)
Fixpoint env_after (batch_ts_literal : string) (steps : list StepRow) (e : Env) : Env :=
  match steps with
  | [] => e
  | step :: rest =>
      env_after batch_ts_literal rest (snd (step_sql_outcome batch_ts_literal step e))
  end.

(** Every step's SQL succeeds when the steps run in order from [e]. *)
Fixpoint steps_succeed (batch_ts_literal : string) (steps : list StepRow) (e : Env) : Prop :=
  match steps with
  | [] => True
  | step :: rest =>
      fst (step_sql_outcome batch_ts_literal step e) = None
      /\ steps_succeed batch_ts_literal rest (snd (step_sql_outcome batch_ts_literal step e))
  end.

(** The runner's own statements never fail. *)
Definition control_statements_ok : Prop :=
  forall s e, statement_fault P s e = None.

(** The steps of a job as the runner reads them. *)
Definition steps_of (jc : string) (w : World) : list StepRow :=
  order_by_step_number (rows_of_job jc (master w)).

(** The connection record resolves and the driver opens the session. *)
Definition connection_opens (conn_id : string) : Prop :=
  exists c a,
    get_connection P conn_id = inr c
    /\ py_or (dict_get (extra c) "account") (host c) = Some a
    /\ PyStr.is_empty a = false
    /\ connect P (connect_args c a) = None.

(** No audit row carries the run id the sequence hands out next. *)
Definition run_id_fresh (w : World) : Prop :=
  Forall (fun r => a_run_id r <> seq w) (audit w).

(** The audit row [r] is the row of [step] in run [run_id]. *)
Definition row_of_step (run_id : Z) (step : StepRow) (r : AuditRecord) : Prop :=
  a_run_id r = run_id
  /\ a_project_name r = project_name step
  /\ a_job_code r = job_code step
  /\ a_job_name r = job_name step
  /\ a_step_number r = step_number step
  /\ a_step_desc r = step_desc step
  /\ (a_src_db r, a_src_schema r, a_src_table r)
     = (src_db step, src_schema step, src_table step)
  /\ (a_tgt_db r, a_tgt_schema r, a_tgt_table r)
     = (tgt_db step, tgt_schema step, tgt_table step).

Definition succeeded_row (run_id : Z) (step : StepRow) (r : AuditRecord) : Prop :=
  row_of_step run_id step r
  /\ load_status r = "SUCCESS" /\ error_message r = None
  /\ run_start_date r <> None /\ run_end_date r <> None.

Definition failed_row (err : string) (run_id : Z) (step : StepRow) (r : AuditRecord) : Prop :=
  row_of_step run_id step r
  /\ load_status r = "FAILED" /\ error_message r = Some err
  /\ run_start_date r <> None /\ run_end_date r <> None.

(** The audit inserts of a trace, in order. *)
Fixpoint audit_inserts (t : list Event) : list (Z * StepRow) :=
  match t with
  | [] => []
  | EvExecute (InsAudit run_id step) :: t' => (run_id, step) :: audit_inserts t'
  | _ :: t' => audit_inserts t'
  end.

(** The audit updates of a trace, in order. *)
Fixpoint audit_updates (t : list Event) : list (Z * StepRow * string * option string) :=
  match t with
  | [] => []
  | EvExecute (UpdAudit run_id step status err) :: t' =>
      (run_id, step, status, err) :: audit_updates t'
  | _ :: t' => audit_updates t'
  end.

(** A submission of SQL text, on either path. *)
Definition is_submission (ev : Event) : bool :=
  match ev with
  | EvExecuteMulti _ | EvExecuteString _ => true
  | _ => false
  end.

Definition is_close (ev : Event) : bool :=
  match ev with
  | EvCursorClose | EvConnectionClose => true
  | _ => false
  end.

(** Calls that reach the warehouse or its driver (all but the clock read). *)
Definition is_database_call (ev : Event) : bool :=
  match ev with
  | EvNow => false
  | _ => true
  end.

(** The events of a step's own SQL on the warehouse [e]. *)
Definition sql_events (batch_ts_literal : string) (step : StepRow) (e : Env) : list Event :=
  trace (snd (run_step_sql batch_ts_literal step (bare e))).

Definition result_of (o : option Exn) : Exn + unit :=
  match o with Some x => inl x | None => inr tt end.

(** The world in which the [try] block starts. *)
Definition session_opened (args : ConnectArgs) (w : World) : World :=
  emit EvCursor (emit (EvConnect args) (emit EvNow w)).

(** What a call made inside the [try] block may be, for the job code [jc],
    the batch timestamp literal [lit] and the steps [steps] of the job. *)
Definition body_event (jc lit : string) (steps : list StepRow) (ev : Event) : Prop :=
  match ev with
  | EvExecute (SelCount j) | EvExecute (SelSteps j) => j = jc
  | EvExecute SelNextVal => True
  | EvExecute (InsAudit _ st) | EvExecute (UpdAudit _ st _ _) => In st steps
  | EvExecuteMulti sql | EvExecuteString sql =>
      exists st l,
        In st steps /\ etl_logic st = Some l
        /\ sql = PyStr.strip (PyStr.replace BATCH_TS_TOKEN (quoted lit) l)
  | EvNow | EvConnect _ | EvCursor | EvCursorClose | EvConnectionClose => False
  end.

(** [m] only appends to the trace, and only events that satisfy [Q]. *)
Definition emits (Q : Event -> Prop) {A} (m : M A) : Prop :=
  forall w, exists evs, trace (snd (m w)) = (trace w ++ evs)%list /\ Forall Q evs.

(** The SQL texts of the native submissions of a trace, in order. *)
Fixpoint native_texts (t : list Event) : list string :=
  match t with
  | [] => []
  | EvExecuteMulti sql :: t' => sql :: native_texts t'
  | _ :: t' => native_texts t'
  end.

(** The text of a step as the runner submits it: the step's logic with the
    token replaced by [lit], stripped by the SQL block executor. *)
Definition step_text (lit : string) (step : StepRow) : string :=
  match etl_logic step with
  | Some l => PyStr.strip (PyStr.replace "$BATCH_TS" lit l)
  | None => EmptyString
  end.

(** The job code a call carries, if it carries one, is [jc]. *)
Definition carries_job_code (jc : string) (ev : Event) : Prop :=
  match ev with
  | EvExecute (SelCount j) | EvExecute (SelSteps j) => j = jc
  | EvExecute (InsAudit _ st) | EvExecute (UpdAudit _ st _ _) => job_code st = jc
  | _ => True
  end.

(** A submitted SQL text is a step's logic with the token replaced by the
    literal [lit]; the clock is not read. *)
Definition uses_literal (lit : string) (steps : list StepRow) (ev : Event) : Prop :=
  ev <> EvNow
  /\ forall sql,
       ev = EvExecuteMulti sql \/ ev = EvExecuteString sql ->
       exists st l,
         In st steps /\ etl_logic st = Some l
         /\ sql = PyStr.strip (PyStr.replace "$BATCH_TS" lit l).

End Runner.

(** ** A concrete deployment

    The scenario of the specification: [JOB_01] has two steps, the first
    with the token in its SQL, the second without SQL; [JOB_03] has three
    steps and the SQL of the second is refused by the warehouse.  The rest of
    the warehouse is the number of SQL blocks run so far, which also drives
    both clocks. *)
Module Scenario.

Definition conn : Connection :=
  mkConnection (Some "etl_user") (Some "secret") None
    [("account", "acme"); ("warehouse", "ETL_WH"); ("database", "MS_ADWBI");
     ("schema", "CTRL"); ("role", "ETL_ROLE")].

Definition conn_without_account : Connection :=
  mkConnection (Some "etl_user") (Some "secret") (Some "")
    [("warehouse", "ETL_WH"); ("account", "")].

Definition connections (conn_id : string) : Exn + Connection :=
  if String.eqb conn_id "snowflake_adwbi" then inr conn
  else if String.eqb conn_id "snowflake_draft" then inr conn_without_account
  else inl (mkExn DriverError "The conn_id isn't defined").

Definition run_text (sql : string) (n : nat) : option Exn * nat :=
  (if PyStr.contains "NO_SUCH_TABLE" sql
   then Some (mkExn DriverError "SQL compilation error: NO_SUCH_TABLE does not exist")
   else None,
   S n).

(** [native] tells whether the driver knows [multi_statement_count]. *)
Definition platform (native : bool) : Platform nat :=
  mkPlatform nat
    (fun n => mkDateTime 2026 1 5 7 30 (N.of_nat n) 123456)
    connections
    (fun _ => None)
    (fun n => Z.of_nat n)
    (fun _ _ => None)
    (fun sql n =>
       if native then run_text sql n
       else (Some (mkExn TypeError "unexpected keyword argument multi_statement_count"), n))
    run_text
    (fun _ => None)
    (fun _ => None)
    (fun _ => None).

(** The same deployment with a session that is lost as soon as it is
    opened: [conn.cursor()] raises. *)
Definition session_lost : Exn := mkExn DriverError "Connection is closed".

Definition platform_losing_session : Platform nat :=
  mkPlatform nat
    (fun n => mkDateTime 2026 1 5 7 30 (N.of_nat n) 123456)
    connections
    (fun _ => None)
    (fun n => Z.of_nat n)
    (fun _ _ => None)
    run_text
    run_text
    (fun _ => None)
    (fun _ => None)
    (fun _ => Some session_lost).

Definition step (jc : string) (n : Z) (desc : string) (logic : option string) : StepRow :=
  mkStepRow "ADWBI" jc ("Job " ++ jc) n desc logic
    (Some "SRC_DB") (Some "STG") (Some "S") (Some "TGT_DB") (Some "DW") (Some "T").

Definition load_t : StepRow :=
  step "JOB_01" 1 "load T" (Some "INSERT INTO T SELECT * FROM S WHERE ts = $BATCH_TS").
Definition mark_done : StepRow := step "JOB_01" 2 "mark done" None.

Definition stage : StepRow := step "JOB_03" 1 "stage" (Some "DELETE FROM STG_T; ").
Definition merge : StepRow :=
  step "JOB_03" 2 "merge" (Some " MERGE INTO NO_SUCH_TABLE USING S ON ts = $BATCH_TS").
Definition publish : StepRow := step "JOB_03" 3 "publish" (Some "INSERT INTO P SELECT 1").

Definition master_table : list StepRow :=
  [mark_done; publish; load_t; stage; merge].

Definition world0 : World nat := mkWorld 0%nat master_table [] 100%Z [].

End Scenario.

Example scenario_job_01 :
  fst (run_etl_job (Scenario.platform true) " JOB_01 " "snowflake_adwbi" Scenario.world0)
  = inr "SUCCESS: JOB_CODE=JOB_01, RUN_ID=100, BATCH_TS=2026-01-05T07:30:00+00:00"
  /\ map (fun r => (a_step_number r, load_status r, error_message r))
       (audit (snd (run_etl_job (Scenario.platform true) " JOB_01 " "snowflake_adwbi"
                      Scenario.world0)))
     = [(1%Z, "SUCCESS", None); (2%Z, "SUCCESS", None)].
Proof. split; reflexivity. Qed.

(** ** Vocabulary of the further properties *)

(** [m] takes every world to one related to it by [R]. *)
Definition keeps {Env : Type} (R : World Env -> World Env -> Prop) {A : Type}
    (m : M (Env := Env) A) : Prop :=
  forall w, R w (snd (m w)).

(** The audit table is [init] followed by rows of run [run_id] only. *)
Definition run_rows {Env : Type} (run_id : Z) (init : list AuditRecord)
    (w : World Env) : Prop :=
  exists rows,
    audit w = (init ++ rows)%list /\ Forall (fun r => a_run_id r = run_id) rows.

(** What a step of run [run_id] may change: neither the master table nor
    the sequence, and in the audit table only rows of the run. *)
Definition run_frame {Env : Type} (run_id : Z) (init : list AuditRecord)
    (w w' : World Env) : Prop :=
  master w' = master w /\ seq w' = seq w
  /\ (run_rows run_id init w -> run_rows run_id init w').

(** Ascending step numbers. *)
Definition step_le (a b : StepRow) : Prop := (step_number a <= step_number b)%Z.

(** The character [c] occurs in [s]. *)
Fixpoint has_char (c : ascii) (s : string) : bool :=
  match s with
  | EmptyString => false
  | String x s' => Ascii.eqb x c || has_char c s'
  end.

(** A deployment in which the warehouse refuses the runner's own statements
    picked by [refused]; everything else is as in [Scenario.platform true]. *)
Module FaultyScenario.

Definition refusal : Exn := mkExn DriverError "Insufficient privileges on the audit table".

Definition platform (refused : Statement -> bool) : Platform nat :=
  mkPlatform nat
    (utc_now (Scenario.platform true))
    Scenario.connections
    (fun _ => None)
    (fun n => Z.of_nat n)
    (fun s _ => if refused s then Some refusal else None)
    Scenario.run_text
    Scenario.run_text
    (fun _ => None)
    (fun _ => None)
    (fun _ => None).

Definition is_insert (s : Statement) : bool :=
  match s with InsAudit _ _ => true | _ => false end.

Definition is_success_update (s : Statement) : bool :=
  match s with UpdAudit _ _ status _ => String.eqb status "SUCCESS" | _ => false end.

Definition is_failed_update (s : Statement) : bool :=
  match s with UpdAudit _ _ status _ => String.eqb status "FAILED" | _ => false end.

End FaultyScenario.

(** ** The DAG of [dags/adwbi_etl_dag.py] *)
Module Dag.

(** [str.lower] on one code point below 256: A..Z and the accented capitals
    0xC0..0xDE, the multiplication sign 0xD7 apart. *)
Definition lower_char (c : ascii) : ascii :=
  let n := nat_of_ascii c in
  if (Nat.leb 65 n && Nat.leb n 90)
     || (Nat.leb 192 n && Nat.leb n 222 && negb (Nat.eqb n 215))
  then ascii_of_nat (n + 32) else c.

Fixpoint lower (s : string) : string :=
  match s with
  | EmptyString => EmptyString
  | String c s' => String (lower_char c) (lower s')
  end.

Definition job_codes : list string :=
  ["JOB_01"; "JOB_02"; "JOB_03"; "JOB_04"; "JOB_05"; "JOB_06"; "JOB_07"; "JOB_08"].

(** A [PythonOperator] whose callable is [run_etl_job]: its task id and its
    [op_kwargs]. *)
Record Task := mkTask {
  task_id : string;
  kw_job_code : string;
  kw_snowflake_conn_id : string
}.

(** The [tasks] dict, in insertion order. *)
Definition tasks : list (string * Task) :=
  map (fun job_code => (job_code, mkTask ("run_" ++ lower job_code) job_code "snowflake_adwbi"))
      job_codes.

(** [tasks["JOB_03"] >> tasks["JOB_04"] >> tasks["JOB_02"]]; an edge is
    (upstream, downstream). *)
Definition chain : list (string * string) :=
  [("JOB_03", "JOB_04"); ("JOB_04", "JOB_02")].

Definition upstream : list string := ["JOB_01"; "JOB_05"; "JOB_06"; "JOB_02"].
Definition downstream : list string := ["JOB_07"; "JOB_08"].

(** [for u in upstream: for d in downstream: u >> d] *)
Definition fan_in : list (string * string) :=
  flat_map (fun u => map (fun d => (u, d)) downstream) upstream.

Definition edges : list (string * string) := (chain ++ fan_in)%list.

(** Position of a job in an order of execution. *)
Fixpoint position (order : list string) (job : string) : option nat :=
  match order with
  | [] => None
  | x :: rest =>
      if String.eqb x job then Some O
      else match position rest job with Some n => Some (S n) | None => None end
  end.

(** [a] runs, and [b] runs after it. *)
Definition before (order : list string) (a b : string) : bool :=
  match position order a, position order b with
  | Some i, Some j => Nat.ltb i j
  | _, _ => false
  end.

(** An order of execution the scheduler may follow: every task runs after
    the tasks upstream of it. *)
Definition admissible (order : list string) : bool :=
  forallb (fun e => before order (fst e) (snd e)) edges.

End Dag.

Example dag_edges :
  Dag.edges
  = [("JOB_03", "JOB_04"); ("JOB_04", "JOB_02");
     ("JOB_01", "JOB_07"); ("JOB_01", "JOB_08"); ("JOB_05", "JOB_07"); ("JOB_05", "JOB_08");
     ("JOB_06", "JOB_07"); ("JOB_06", "JOB_08"); ("JOB_02", "JOB_07"); ("JOB_02", "JOB_08")]
  /\ map (fun t => Dag.task_id (snd t)) Dag.tasks
     = ["run_job_01"; "run_job_02"; "run_job_03"; "run_job_04";
        "run_job_05"; "run_job_06"; "run_job_07"; "run_job_08"].
Proof. split; reflexivity. Qed.

(** * Properties *)

(** ** Strings *)

Section StringFacts.

Import PyStr.

Lemma string_app_assoc (a b c : string) : (a ++ b) ++ c = a ++ b ++ c.
Proof. induction a as [|x a IH]; simpl; [reflexivity | now rewrite IH]. Qed.

Lemma string_app_empty_r (a : string) : a ++ "" = a.
Proof. induction a as [|x a IH]; simpl; [reflexivity | now rewrite IH]. Qed.

Lemma string_length_app (a b : string) :
  String.length (a ++ b) = (String.length a + String.length b)%nat.
Proof. induction a as [|x a IH]; simpl; [reflexivity | now rewrite IH]. Qed.

Lemma is_empty_true (s : string) : is_empty s = true <-> s = "".
Proof. destruct s; simpl; split; intro H; try reflexivity; discriminate. Qed.

Lemma lstrip_all_space (s : string) : all_space s = true -> lstrip s = "".
Proof.
  induction s as [|c s IH]; simpl; [reflexivity|].
  intro H. apply andb_true_iff in H as [Hc Hs]. rewrite Hc. auto.
Qed.

Lemma lstrip_empty (s : string) : lstrip s = "" -> all_space s = true.
Proof.
  induction s as [|c s IH]; simpl; [reflexivity|].
  destruct (is_space c); simpl; [exact IH | discriminate].
Qed.

(** What [lstrip] leaves does not start with white space. *)
Lemma lstrip_head (s : string) :
  lstrip s = "" \/ exists c t, lstrip s = String c t /\ is_space c = false.
Proof.
  induction s as [|c s IH]; simpl; [now left|].
  destruct (is_space c) eqn:E; [exact IH|].
  right. now exists c, s.
Qed.

Lemma strip_all_space (s : string) : all_space s = true <-> strip s = "".
Proof.
  unfold strip. split.
  - intro H. now rewrite (lstrip_all_space s H).
  - intro H. apply lstrip_empty.
    destruct (lstrip_head s) as [E | (c & t & E & Hc)]; [exact E|].
    rewrite E in H. simpl in H. rewrite Hc in H. discriminate.
Qed.

(** *** [replace] on the batch timestamp token *)

Lemma prefix_spec (p s : string) : prefix p s = true <-> exists r, s = p ++ r.
Proof.
  revert s. induction p as [|a p IH]; intro s; simpl.
  - split; [intros _; now exists s | destruct s; reflexivity].
  - destruct s as [|b s]; simpl.
    + split; [discriminate | intros [r H]; discriminate].
    + destruct (ascii_dec a b) as [->|N].
      * rewrite IH. split; intros [r H]; exists r; [now rewrite H | now injection H].
      * split; [discriminate | intros [r H]; injection H; intros; now subst].
Qed.

Lemma drop_app_length (a b : string) : drop (String.length a) (a ++ b) = b.
Proof. induction a as [|x a IH]; simpl; [now destruct b | exact IH]. Qed.

Lemma replace_from_skip (old new : string) (k : nat) (s : string) :
  is_empty old = false ->
  replace_from old new k s = replace_from old new 0 (drop k s).
Proof.
  intro Hne. revert s. induction k as [|k IH]; intro s; [now destruct s|].
  destruct s as [|c s]; simpl; [now rewrite Hne | apply IH].
Qed.

Lemma replace_empty (old new : string) :
  is_empty old = false -> replace old new "" = "".
Proof. intro Hne. unfold replace. simpl. now rewrite Hne. Qed.

(** A match at the head is replaced and the scan resumes after it. *)
Lemma replace_match (old new x : string) :
  is_empty old = false ->
  replace old new (old ++ x) = new ++ replace old new x.
Proof.
  intro Hne. unfold replace. destruct old as [|c o]; [discriminate|].
  change (String c o ++ x) with (String c (o ++ x)).
  cbn [replace_from is_empty].
  assert (Hp : prefix (String c o) (String c (o ++ x)) = true)
    by (apply prefix_spec; now exists x).
  rewrite Hp. rewrite replace_from_skip by reflexivity.
  replace (String.length (String c o) - 1)%nat with (String.length o)
    by (simpl; lia).
  now rewrite drop_app_length.
Qed.

(** No match at the head: the character is kept. *)
Lemma replace_keep (old new : string) (c : ascii) (s : string) :
  is_empty old = false ->
  prefix old (String c s) = false ->
  replace old new (String c s) = String c (replace old new s).
Proof.
  unfold replace. intros Hne H. cbn [replace_from]. now rewrite Hne, H.
Qed.

Lemma replace_absent (old new s : string) :
  is_empty old = false ->
  contains old s = false -> replace old new s = s.
Proof.
  intro Hne. induction s as [|c s IH]; intro H.
  - now apply replace_empty.
  - cbn [contains] in H. apply orb_false_iff in H as [Hp Hc].
    rewrite (replace_keep _ _ _ _ Hne Hp). now rewrite (IH Hc).
Qed.

(** The token cannot overlap a later copy of itself: a copy that starts
    after fewer than nine characters is no match at the head. *)
Lemma token_no_overlap (a b : string) :
  (0 < String.length a < 9)%nat ->
  prefix "$BATCH_TS" (a ++ "$BATCH_TS" ++ b) = false.
Proof.
  intro Hl.
  destruct (prefix "$BATCH_TS" (a ++ "$BATCH_TS" ++ b)) eqn:E; [|reflexivity].
  exfalso. apply prefix_spec in E as [r E].
  do 9 (destruct a as [|? a]; [simpl in *; try lia; congruence|]).
  simpl in Hl. lia.
Qed.

Lemma prefix_app_l (p a x : string) :
  prefix p a = true -> prefix p (a ++ x) = true.
Proof.
  rewrite !prefix_spec. intros [r ->]. exists (r ++ x). apply string_app_assoc.
Qed.

Lemma prefix_app_inv (p a x : string) :
  prefix p (a ++ x) = true -> (String.length p <= String.length a)%nat ->
  prefix p a = true.
Proof.
  revert a. induction p as [|c p IH]; intros a H Hl; [now destruct a|].
  destruct a as [|d a]; [simpl in Hl; lia|].
  simpl in *. destruct (ascii_dec c d); [|discriminate].
  apply IH; [exact H | lia].
Qed.

(** Plain textual replacement: every occurrence of the token, wherever it
    stands, is replaced by the literal, and the rest is scanned on its own. *)
Lemma replace_token_occurrence (new a b : string) :
  replace "$BATCH_TS" new (a ++ "$BATCH_TS" ++ b)
  = replace "$BATCH_TS" new a ++ new ++ replace "$BATCH_TS" new b.
Proof.
  remember (String.length a) as n eqn:Hn. revert a Hn.
  induction n as [n IH] using lt_wf_ind. intros a Hn.
  destruct a as [|c a].
  - change ("" ++ "$BATCH_TS" ++ b) with ("$BATCH_TS" ++ b).
    rewrite replace_match by reflexivity.
    now rewrite replace_empty by reflexivity.
  - destruct (prefix "$BATCH_TS" (String c a ++ "$BATCH_TS" ++ b)) eqn:E.
    + destruct (Nat.lt_ge_cases (String.length (String c a)) 9) as [Hs|Hs].
      * rewrite token_no_overlap in E; [discriminate | simpl in *; lia].
      * apply prefix_app_inv in E; [|exact Hs].
        apply prefix_spec in E as [r E]. rewrite E.
        rewrite string_app_assoc.
        rewrite !replace_match by reflexivity.
        rewrite (IH (String.length r)) with (a := r); [|  | reflexivity].
        -- now rewrite string_app_assoc.
        -- subst n. rewrite E. rewrite string_length_app. simpl. lia.
    + change (String c a ++ "$BATCH_TS" ++ b) with (String c (a ++ "$BATCH_TS" ++ b)) in *.
      rewrite replace_keep by (reflexivity || exact E).
      rewrite (IH (String.length a)) with (a := a); [| subst n; simpl; lia | reflexivity].
      assert (Ha : prefix "$BATCH_TS" (String c a) = false).
      { destruct (prefix "$BATCH_TS" (String c a)) eqn:E'; [|reflexivity].
        apply prefix_app_l with (x := "$BATCH_TS" ++ b) in E'.
        change (String c a ++ "$BATCH_TS" ++ b) with (String c (a ++ "$BATCH_TS" ++ b)) in E'.
        congruence. }
      rewrite (replace_keep "$BATCH_TS" new c a eq_refl Ha).
      reflexivity.
Qed.

Lemma all_space_app (a b : string) :
  all_space (a ++ b) = all_space a && all_space b.
Proof.
  induction a as [|c a IH]; [reflexivity|].
  cbn. now rewrite IH, andb_assoc.
Qed.

(** Replacing the token by a text that starts with a visible character
    cannot turn a text into white space. *)
Lemma all_space_replace (q : ascii) (new' s : string) :
  is_space q = false ->
  all_space (replace "$BATCH_TS" (String q new') s) = true -> all_space s = true.
Proof.
  intro Hq. remember (String.length s) as n eqn:Hn. revert s Hn.
  induction n as [n IH] using lt_wf_ind. intros s Hn H.
  destruct s as [|c s]; [reflexivity|].
  destruct (prefix "$BATCH_TS" (String c s)) eqn:E.
  - apply prefix_spec in E as [r E]. rewrite E in H.
    rewrite replace_match in H by reflexivity.
    cbn [append all_space] in H. rewrite Hq in H. discriminate.
  - rewrite replace_keep in H by (reflexivity || exact E).
    cbn [all_space] in *. apply andb_true_iff in H as [Hc Hs]. rewrite Hc.
    apply (IH (String.length s)); [subst n; cbn; lia | reflexivity | exact Hs].
Qed.

End StringFacts.

(** ** The runner *)

Section RunnerFacts.

Context {Env : Type} (P : Platform Env).

Local Abbreviation World := (World Env).

Notation "x <- m ;; k" := (bind m (fun x => k))
  (at level 61, m at next level, right associativity).
Notation "m ;; k" := (bind m (fun _ => k))
  (at level 61, right associativity).

(** *** Worlds *)

Lemma world_eta (w : World) :
  w = mkWorld (env w) (master w) (audit w) (seq w) (trace w).
Proof. now destruct w. Qed.

(** The SQL block executor neither reads nor writes the control tables. *)
Lemma execute_sql_block_frame (sql : string) (w : World) :
  _execute_sql_block P sql w
  = (fst (_execute_sql_block P sql (bare (env w))),
     mkWorld (env (snd (_execute_sql_block P sql (bare (env w)))))
       (master w) (audit w) (seq w)
       (trace w ++ trace (snd (_execute_sql_block P sql (bare (env w)))))%list).
Proof.
  unfold _execute_sql_block.
  destruct (PyStr.is_empty (PyStr.strip sql)).
  - unfold ret. cbn. rewrite app_nil_r. now rewrite <- world_eta.
  - unfold try_except, cur_execute_multi, conn_execute_string, run_sql, raise.
    cbn [bare env master audit seq trace emit set_env].
    destruct (execute_multi P (PyStr.strip sql) (env w)) as [[e|] e1]; cbn; [|reflexivity].
    destruct (is_TypeError e); cbn; [|reflexivity].
    destruct (execute_string P (PyStr.strip sql) e1) as [[e'|] e2];
      unfold set_env, emit; cbn; now rewrite <- app_assoc.
Qed.

Lemma run_step_sql_frame (lit : string) (step : StepRow) (w : World) :
  run_step_sql P lit step w
  = (result_of (fst (step_sql_outcome P lit step (env w))),
     mkWorld (snd (step_sql_outcome P lit step (env w)))
       (master w) (audit w) (seq w)
       (trace w ++ sql_events P lit step (env w))%list).
Proof.
  unfold step_sql_outcome, sql_events, run_step_sql.
  destruct (etl_logic step) as [l|].
  - destruct (has_logic step).
    + rewrite execute_sql_block_frame.
      destruct (_execute_sql_block P _ (bare (env w))) as [[e|[]] w']; reflexivity.
    + unfold ret. cbn. rewrite app_nil_r. now rewrite <- world_eta.
  - unfold ret. cbn. rewrite app_nil_r. now rewrite <- world_eta.
Qed.

(** *** The runner's own statements, when they do not fail *)

Hypothesis control_ok : control_statements_ok P.

Lemma audit_insert_started_ok (run_id : Z) (step : StepRow) (w : World) :
  _audit_insert_started P run_id step w
  = (inr tt,
     mkWorld (env w) (master w)
       (audit w ++ [started_record (current_timestamp P (env w)) run_id step])%list
       (seq w) (trace w ++ [EvExecute (InsAudit run_id step)])%list).
Proof.
  unfold _audit_insert_started, bind, cur_execute, ret.
  now rewrite control_ok.
Qed.

Lemma audit_update_ok (run_id : Z) (step : StepRow) (status : string)
    (err : option string) (w : World) :
  _audit_update P run_id step status err w
  = (inr tt,
     mkWorld (env w) (master w)
       (map (apply_update (current_timestamp P (env w)) run_id step status err) (audit w))
       (seq w) (trace w ++ [EvExecute (UpdAudit run_id step status err)])%list).
Proof.
  unfold _audit_update, bind, cur_execute, ret.
  now rewrite control_ok.
Qed.

Lemma fetch_count_ok (jc : string) (w : World) :
  _fetch_one_int P (SelCount jc) w
  = (inr (Z.of_nat (List.length (rows_of_job jc (master w)))),
     emit (EvExecute (SelCount jc)) w).
Proof.
  unfold _fetch_one_int, bind, cur_execute, ret.
  now rewrite control_ok.
Qed.

Lemma fetch_nextval_ok (w : World) :
  _fetch_one_int P SelNextVal w
  = (inr (seq w),
     mkWorld (env w) (master w) (audit w) (seq w + 1)%Z
       (trace w ++ [EvExecute SelNextVal])%list).
Proof.
  unfold _fetch_one_int, bind, cur_execute, ret.
  now rewrite control_ok.
Qed.

Lemma fetch_steps_ok (jc : string) (w : World) :
  _fetch_steps P jc w = (inr (steps_of jc w), emit (EvExecute (SelSteps jc)) w).
Proof.
  unfold _fetch_steps, bind, cur_execute, ret.
  now rewrite control_ok.
Qed.

(** One pass of the loop body whose SQL succeeds. *)
Lemma run_step_success (jc : string) (run_id : Z) (lit : string) (step : StepRow)
    (w : World) :
  fst (step_sql_outcome P lit step (env w)) = None ->
  run_step P jc run_id lit step w
  = (inr tt,
     mkWorld (snd (step_sql_outcome P lit step (env w))) (master w)
       (map (apply_update
               (current_timestamp P (snd (step_sql_outcome P lit step (env w))))
               run_id step "SUCCESS" None)
            (audit w ++ [started_record (current_timestamp P (env w)) run_id step]))
       (seq w)
       (trace w ++ EvExecute (InsAudit run_id step)
          :: sql_events P lit step (env w)
          ++ [EvExecute (UpdAudit run_id step "SUCCESS" None)])%list).
Proof.
  intro Hok. unfold run_step, bind, try_except.
  rewrite audit_insert_started_ok, run_step_sql_frame.
  cbn [env master audit seq trace]. rewrite Hok.
  cbn [result_of]. rewrite audit_update_ok.
  cbn [env master audit seq trace].
  now rewrite <- !app_assoc.
Qed.

(** One pass of the loop body whose SQL raises [e]. *)
Lemma run_step_failure (jc : string) (run_id : Z) (lit : string) (step : StepRow)
    (w : World) (e : Exn) :
  fst (step_sql_outcome P lit step (env w)) = Some e ->
  run_step P jc run_id lit step w
  = (inl (mkExn RuntimeError (job_failed_message jc run_id step (exn_str e))),
     mkWorld (snd (step_sql_outcome P lit step (env w))) (master w)
       (map (apply_update
               (current_timestamp P (snd (step_sql_outcome P lit step (env w))))
               run_id step "FAILED" (Some (exn_str e)))
            (audit w ++ [started_record (current_timestamp P (env w)) run_id step]))
       (seq w)
       (trace w ++ EvExecute (InsAudit run_id step)
          :: sql_events P lit step (env w)
          ++ [EvExecute (UpdAudit run_id step "FAILED" (Some (exn_str e)))])%list).
Proof.
  intro Hko. unfold run_step, bind, try_except.
  rewrite audit_insert_started_ok, run_step_sql_frame.
  cbn [env master audit seq trace]. rewrite Hko.
  cbn [result_of]. rewrite audit_update_ok. unfold raise.
  cbn [env master audit seq trace].
  now rewrite <- !app_assoc.
Qed.

(** *** The audit table under the UPDATE *)

Lemma apply_update_other_run now run_id step status err r :
  a_run_id r <> run_id -> apply_update now run_id step status err r = r.
Proof.
  intro H. unfold apply_update, update_matches.
  destruct (Z.eqb_spec (a_run_id r) run_id); [contradiction | reflexivity].
Qed.

Lemma apply_update_other_step now run_id step status err r :
  a_step_number r <> step_number step ->
  apply_update now run_id step status err r = r.
Proof.
  intro H. unfold apply_update, update_matches.
  destruct (Z.eqb_spec (a_step_number r) (step_number step)); [contradiction|].
  now rewrite andb_false_r.
Qed.

Lemma apply_update_started now t run_id step status err :
  apply_update now run_id step status err (started_record t run_id step)
  = set_terminal now status err (started_record t run_id step).
Proof.
  unfold apply_update, update_matches. cbn.
  now rewrite !Z.eqb_refl, String.eqb_refl.
Qed.

Lemma map_apply_update_other_run now run_id step status err rows :
  Forall (fun r => a_run_id r <> run_id) rows ->
  map (apply_update now run_id step status err) rows = rows.
Proof.
  induction 1 as [|r rows Hr _ IH]; cbn; [reflexivity|].
  now rewrite IH, apply_update_other_run.
Qed.

Lemma row_of_step_set_terminal now status err run_id step r :
  row_of_step run_id step r ->
  row_of_step run_id step (set_terminal now status err r).
Proof. intro H. exact H. Qed.

Lemma succeeded_row_update now run_id step step' r :
  succeeded_row run_id step' r ->
  succeeded_row run_id step' (apply_update now run_id step "SUCCESS" None r).
Proof.
  intros (Hrow & Hst & Herr & Hs & He). unfold apply_update.
  destruct (update_matches _ _ _ r).
  - repeat split; try exact Hs; try discriminate; apply Hrow.
  - repeat split; try assumption; apply Hrow.
Qed.

Lemma row_of_step_started t run_id step :
  row_of_step run_id step (started_record t run_id step).
Proof. repeat split. Qed.

Lemma succeeded_row_started now t run_id step :
  succeeded_row run_id step
    (apply_update now run_id step "SUCCESS" None (started_record t run_id step)).
Proof. rewrite apply_update_started. repeat split; discriminate. Qed.

Lemma failed_row_started now t run_id step err :
  failed_row err run_id step
    (apply_update now run_id step "FAILED" (Some err) (started_record t run_id step)).
Proof. rewrite apply_update_started. repeat split; discriminate. Qed.

Lemma Forall2_succeeded_update now run_id step done rows :
  Forall2 (succeeded_row run_id) done rows ->
  Forall2 (succeeded_row run_id) done
    (map (apply_update now run_id step "SUCCESS" None) rows).
Proof.
  induction 1; cbn; constructor; auto using succeeded_row_update.
Qed.

(** Rows of steps with another step number are out of the UPDATE's reach. *)
Lemma map_apply_update_other_steps now run_id step status err done rows :
  Forall2 (succeeded_row run_id) done rows ->
  ~ In (step_number step) (map step_number done) ->
  map (apply_update now run_id step status err) rows = rows.
Proof.
  induction 1 as [|d r done rows Hr _ IH]; cbn; intro Hn; [reflexivity|].
  rewrite IH by tauto. rewrite apply_update_other_step; [reflexivity|].
  destruct Hr as ((_ & _ & _ & _ & Hsn & _) & _). rewrite Hsn. tauto.
Qed.

Lemma audit_inserts_app (t1 t2 : list Event) :
  audit_inserts (t1 ++ t2) = (audit_inserts t1 ++ audit_inserts t2)%list.
Proof.
  induction t1 as [|ev t1 IH]; [reflexivity|].
  destruct ev as [| | |[]| | | |]; cbn; now rewrite IH.
Qed.

Lemma audit_updates_app (t1 t2 : list Event) :
  audit_updates (t1 ++ t2) = (audit_updates t1 ++ audit_updates t2)%list.
Proof.
  induction t1 as [|ev t1 IH]; [reflexivity|].
  destruct ev as [| | |[]| | | |]; cbn; now rewrite IH.
Qed.

Lemma audit_inserts_submissions (t : list Event) :
  Forall (fun ev => is_submission ev = true) t -> audit_inserts t = [].
Proof.
  induction 1 as [|ev t Hev _ IH]; [reflexivity|].
  destruct ev as [| | |[]| | | |]; try discriminate; exact IH.
Qed.

Lemma audit_updates_submissions (t : list Event) :
  Forall (fun ev => is_submission ev = true) t -> audit_updates t = [].
Proof.
  induction 1 as [|ev t Hev _ IH]; [reflexivity|].
  destruct ev as [| | |[]| | | |]; try discriminate; exact IH.
Qed.

(** A step's own SQL only submits SQL text. *)
Lemma sql_events_submissions (lit : string) (step : StepRow) (e : Env) :
  Forall (fun ev => is_submission ev = true) (sql_events P lit step e).
Proof.
  unfold sql_events, run_step_sql.
  destruct (etl_logic step) as [l|]; [|constructor].
  destruct (has_logic step); [|constructor].
  unfold _execute_sql_block.
  destruct (PyStr.is_empty _); [constructor|].
  unfold try_except, cur_execute_multi, conn_execute_string, run_sql, raise.
  cbn [bare env master audit seq trace emit set_env].
  destruct (execute_multi P _ e) as [[x|] e1]; cbn; [|repeat constructor].
  destruct (is_TypeError x); cbn; [|repeat constructor].
  destruct (execute_string P _ e1) as [[x'|] e2]; cbn; repeat constructor.
Qed.

(** *** The loop *)

Lemma run_steps_app jc run_id lit (pre rest : list StepRow) (w : World) :
  run_steps P jc run_id lit (pre ++ rest) w
  = (run_steps P jc run_id lit pre ;; run_steps P jc run_id lit rest) w.
Proof.
  revert w. induction pre as [|st pre IH]; intro w; [reflexivity|].
  cbn [run_steps app]. unfold bind in *.
  destruct (run_step P jc run_id lit st w) as [[e|[]] w1]; [reflexivity | apply IH].
Qed.

Lemma step_events_inserts run_id lit step e status err evs :
  audit_inserts
    ((EvExecute (InsAudit run_id step)
        :: sql_events P lit step e ++ [EvExecute (UpdAudit run_id step status err)])
       ++ evs)
  = (run_id, step) :: audit_inserts evs.
Proof.
  rewrite audit_inserts_app. cbn [audit_inserts]. rewrite audit_inserts_app.
  rewrite audit_inserts_submissions by apply sql_events_submissions.
  reflexivity.
Qed.

Lemma step_events_updates run_id lit step e status err evs :
  audit_updates
    ((EvExecute (InsAudit run_id step)
        :: sql_events P lit step e ++ [EvExecute (UpdAudit run_id step status err)])
       ++ evs)
  = (run_id, step, status, err) :: audit_updates evs.
Proof.
  rewrite audit_updates_app. cbn [audit_updates]. rewrite audit_updates_app.
  rewrite audit_updates_submissions by apply sql_events_submissions.
  reflexivity.
Qed.

(** The loop over steps whose SQL all succeeds: it returns, every step
    gets one row, and every row ends as SUCCESS. *)
Lemma run_steps_success jc run_id lit (steps : list StepRow) :
  forall (w : World) init rows done,
    audit w = (init ++ rows)%list ->
    Forall (fun r => a_run_id r <> run_id) init ->
    Forall2 (succeeded_row run_id) done rows ->
    steps_succeed P lit steps (env w) ->
    exists rows' evs,
      run_steps P jc run_id lit steps w
      = (inr tt,
         mkWorld (env_after P lit steps (env w)) (master w) (init ++ rows')%list
           (seq w) (trace w ++ evs)%list)
      /\ Forall2 (succeeded_row run_id) (done ++ steps)%list rows'
      /\ audit_inserts evs = map (pair run_id) steps
      /\ audit_updates evs = map (fun st => (run_id, st, "SUCCESS", None)) steps
      /\ Forall (fun ev => is_close ev = false) evs.
Proof.
  induction steps as [|st steps IH]; intros w init rows done Ha Hinit Hrows Hs.
  - exists rows, []. cbn. unfold ret. rewrite !app_nil_r, <- Ha, <- world_eta.
    repeat split; [assumption | constructor].
  - destruct Hs as [Hok Hrest]. cbn [run_steps]. unfold bind.
    rewrite (run_step_success _ _ _ _ _ Hok).
    set (e1 := snd (step_sql_outcome P lit st (env w))) in *.
    set (upd := apply_update (current_timestamp P e1) run_id st "SUCCESS" None).
    set (started := started_record (current_timestamp P (env w)) run_id st).
    match goal with |- context [run_steps P jc run_id lit steps ?w1] =>
      destruct (IH w1 init (map upd rows ++ [upd started])%list (done ++ [st])%list)
        as (rows' & evs & Hrun & Hall & Hins & Hupd & Hcl)
    end.
    + cbn [audit]. rewrite Ha, <- app_assoc, !map_app.
      unfold upd at 1. now rewrite map_apply_update_other_run.
    + exact Hinit.
    + apply Forall2_app.
      * now apply Forall2_succeeded_update.
      * constructor; [apply succeeded_row_started | constructor].
    + exact Hrest.
    + rewrite Hrun. cbn [env master seq trace env_after]. fold e1.
      exists rows'. eexists. split; [|split; [|split; [|split]]].
      * now rewrite <- app_assoc.
      * now rewrite <- app_assoc in Hall.
      * rewrite step_events_inserts. cbn [map]. now rewrite Hins.
      * rewrite step_events_updates. cbn [map]. now rewrite Hupd.
      * cbn [app]. constructor; [reflexivity|].
        rewrite <- app_assoc. apply Forall_app. split.
        -- eapply Forall_impl; [|apply sql_events_submissions].
           intros [] Hev; try discriminate; reflexivity.
        -- constructor; [reflexivity | exact Hcl].
Qed.

(** The loop when the SQL of one step fails after the steps before it
    succeeded: the rows before end as SUCCESS, the row of the failing step
    as FAILED, and the steps after it are not started. *)
Lemma run_steps_failure jc run_id lit (pre : list StepRow) (step : StepRow)
    (post : list StepRow) (e : Exn) (w : World) :
  Forall (fun r => a_run_id r <> run_id) (audit w) ->
  steps_succeed P lit pre (env w) ->
  fst (step_sql_outcome P lit step (env_after P lit pre (env w))) = Some e ->
  ~ In (step_number step) (map step_number pre) ->
  exists rows row evs e',
    run_steps P jc run_id lit (pre ++ step :: post) w
    = (inl (mkExn RuntimeError (job_failed_message jc run_id step (exn_str e))),
       mkWorld e' (master w) (audit w ++ rows ++ [row])%list (seq w)
         (trace w ++ evs)%list)
    /\ Forall2 (succeeded_row run_id) pre rows
    /\ failed_row (exn_str e) run_id step row
    /\ audit_inserts evs = map (pair run_id) (pre ++ [step])
    /\ Forall (fun ev => is_close ev = false) evs.
Proof.
  intros Hinit Hpre Hfail Hnew.
  destruct (run_steps_success jc run_id lit pre w (audit w) [] [])
    as (rows & evs & Hrun & Hrows & Hins & _ & Hcl);
    [now rewrite app_nil_r | exact Hinit | constructor | exact Hpre |].
  rewrite run_steps_app. unfold bind at 1. rewrite Hrun.
  cbn [run_steps]. unfold bind.
  rewrite (run_step_failure jc run_id lit step _ e) by exact Hfail.
  cbn [env master audit seq trace].
  set (e1 := snd (step_sql_outcome P lit step (env_after P lit pre (env w)))).
  set (started := started_record (current_timestamp P (env_after P lit pre (env w)))
                    run_id step).
  exists rows, (apply_update (current_timestamp P e1) run_id step "FAILED"
                  (Some (exn_str e)) started).
  eexists. exists e1.
  split; [|split; [exact Hrows | split; [apply failed_row_started | split]]].
  - f_equal. f_equal.
    + rewrite !map_app.
      rewrite map_apply_update_other_run by exact Hinit.
      rewrite (map_apply_update_other_steps _ _ _ _ _ pre rows Hrows Hnew).
      cbn [map]. now rewrite <- app_assoc.
    + now rewrite <- app_assoc.
  - rewrite audit_inserts_app, Hins, map_app.
    f_equal. cbn [audit_inserts]. rewrite audit_inserts_app.
    now rewrite audit_inserts_submissions by apply sql_events_submissions.
  - apply Forall_app. split; [exact Hcl|].
    constructor; [reflexivity|]. apply Forall_app. split.
    + eapply Forall_impl; [|apply sql_events_submissions].
      intros [] Hev; try discriminate; reflexivity.
    + repeat constructor.
Qed.

(** *** The run as a whole *)

Lemma blank_guard (job_code : string) :
  PyStr.is_empty job_code || PyStr.is_empty (PyStr.strip job_code)
  = PyStr.all_space job_code.
Proof.
  destruct (PyStr.all_space job_code) eqn:E.
  - apply strip_all_space in E. rewrite E. apply orb_true_r.
  - destruct job_code as [|c s]; [discriminate|]. cbn [PyStr.is_empty orb].
    destruct (PyStr.strip (String c s)) eqn:Es; [|reflexivity].
    apply strip_all_space in Es. congruence.
Qed.

(** The [finally] block calls both [close] methods, whatever they do. *)
Lemma release_run (w : World) :
  release P w = (inr tt, emit EvConnectionClose (emit EvCursorClose w)).
Proof.
  unfold release, bind, try_pass, cur_close, conn_close, call.
  destruct (cursor_close P (env w)); cbn;
    destruct (connection_close P (env w)); reflexivity.
Qed.

Lemma try_finally_release {A} (m : M A) (w : World) :
  try_finally m (release P) w
  = (fst (m w), emit EvConnectionClose (emit EvCursorClose (snd (m w)))).
Proof.
  unfold try_finally. destruct (m w) as [r w1]. now rewrite release_run.
Qed.

(** A run that gets its session is the [try] block followed by the two
    [close] calls. *)
Lemma run_etl_job_connected (job_code conn_id : string) (w : World) :
  PyStr.all_space job_code = false ->
  connection_opens P conn_id ->
  cursor_fault P (env w) = None ->
  exists args,
    run_etl_job P job_code conn_id w
    = (fst (run_job_body P (PyStr.strip job_code)
              (replace_microsecond_0 (utc_now P (env w))) (session_opened args w)),
       emit EvConnectionClose
         (emit EvCursorClose
            (snd (run_job_body P (PyStr.strip job_code)
                    (replace_microsecond_0 (utc_now P (env w)))
                    (session_opened args w))))).
Proof.
  intros Hjc (c & a & Hc & Ha & Hne & Hopen) Hcur.
  exists (connect_args c a).
  unfold run_etl_job. rewrite blank_guard, Hjc.
  unfold bind, datetime_now_utc, _get_snowflake_connection, conn_cursor, call.
  rewrite Hc, Ha. cbn [truthy negb]. rewrite Hne. cbn [negb].
  rewrite Hopen. cbn [env emit]. rewrite Hcur. now rewrite try_finally_release.
Qed.

Lemma length_insert_by_step_number (r : StepRow) (l : list StepRow) :
  List.length (insert_by_step_number r l) = S (List.length l).
Proof.
  induction l as [|x l IH]; [reflexivity|].
  cbn. destruct (step_number r <=? step_number x)%Z; cbn; [reflexivity | now rewrite IH].
Qed.

Lemma length_order_by_step_number (l : list StepRow) :
  List.length (order_by_step_number l) = List.length l.
Proof.
  induction l as [|x l IH]; [reflexivity|].
  unfold order_by_step_number in *. cbn [fold_right].
  now rewrite length_insert_by_step_number, IH.
Qed.

Lemma In_insert_by_step_number (x r : StepRow) (l : list StepRow) :
  In x (insert_by_step_number r l) -> x = r \/ In x l.
Proof.
  induction l as [|y l IH]; cbn.
  - intros [->|[]]. now left.
  - destruct (step_number r <=? step_number y)%Z; cbn.
    + intros [->|H]; [now left | now right].
    + intros [->|H]; [right; now left|].
      destruct (IH H) as [->|H']; [now left | right; now right].
Qed.

Lemma In_order_by_step_number (x : StepRow) (l : list StepRow) :
  In x (order_by_step_number l) -> In x l.
Proof.
  induction l as [|y l IH]; [intros []|].
  unfold order_by_step_number in *. cbn [fold_right].
  intro H. apply In_insert_by_step_number in H as [->|H]; [now left | right; auto].
Qed.

(** Every step the runner reads carries the job code it asked for. *)
Lemma steps_of_job_code (jc : string) (w : World) (st : StepRow) :
  In st (steps_of jc w) -> job_code st = jc.
Proof.
  intro H. apply In_order_by_step_number in H.
  apply filter_In in H as [_ H]. now apply String.eqb_eq.
Qed.

(** The [try] block up to the loop, when the job has steps. *)
Lemma run_job_body_known_job (jc : string) (batch_ts : DateTime) (w : World) :
  steps_of jc w <> [] ->
  run_job_body P jc batch_ts w
  = (run_steps P jc (seq w) (isoformat " " batch_ts) (steps_of jc w) ;;
     ret (success_message jc (seq w) batch_ts))
      (mkWorld (env w) (master w) (audit w) (seq w + 1)%Z
         (trace w ++ [EvExecute (SelCount jc); EvExecute SelNextVal;
                      EvExecute (SelSteps jc)])%list).
Proof.
  intro Hsteps. unfold run_job_body. unfold bind at 1. rewrite fetch_count_ok.
  destruct (Z.eqb_spec (Z.of_nat (List.length (rows_of_job jc (master w)))) 0) as [E|_].
  - exfalso. apply Hsteps. apply length_zero_iff_nil.
    unfold steps_of. rewrite length_order_by_step_number. lia.
  - unfold bind at 1. rewrite fetch_nextval_ok.
    unfold bind at 1. rewrite fetch_steps_ok.
    unfold steps_of, emit. cbn [env master audit seq trace].
    now rewrite <- !app_assoc.
Qed.

(** C1. For a job code with at least one step in the master table, each of
    whose steps' SQL succeeds, the run inserts one audit row per step, brings
    every one of them to SUCCESS with no error message, and returns the
    success text made of the job code, the run id of those rows and the batch
    timestamp. *)
Theorem C1_successful_run (job_code conn_id : string) (w : World) :
  PyStr.all_space job_code = false ->
  connection_opens P conn_id ->
  cursor_fault P (env w) = None ->
  run_id_fresh w ->
  let jc := PyStr.strip job_code in
  let batch_ts := replace_microsecond_0 (utc_now P (env w)) in
  let steps := steps_of jc w in
  (1 <= List.length steps)%nat ->
  steps_succeed P (isoformat " " batch_ts) steps (env w) ->
  let out := run_etl_job P job_code conn_id w in
  exists rows,
    fst out = inr ("SUCCESS: JOB_CODE=" ++ jc
                   ++ ", RUN_ID=" ++ PyStr.str_of_int (seq w)
                   ++ ", BATCH_TS=" ++ isoformat "T" batch_ts)
    /\ audit (snd out) = (audit w ++ rows)%list
    /\ Forall2 (succeeded_row (seq w)) steps rows
    /\ audit_inserts (trace (snd out))
       = (audit_inserts (trace w) ++ map (pair (seq w)) steps)%list
    /\ audit_updates (trace (snd out))
       = (audit_updates (trace w)
          ++ map (fun st => (seq w, st, "SUCCESS", None)) steps)%list.
Proof.
  intros Hjc Hconn Hcur Hfresh jc batch_ts steps Hlen Hsucc out.
  destruct (run_etl_job_connected job_code conn_id w Hjc Hconn Hcur) as [args Hrun].
  subst out. rewrite Hrun. cbn [fst snd]. fold jc batch_ts.
  rewrite run_job_body_known_job
    by (change (steps_of jc (session_opened args w)) with steps;
        destruct steps; [cbn in Hlen; lia | discriminate]).
  change (steps_of jc (session_opened args w)) with steps.
  unfold bind.
  match goal with |- context [run_steps P jc ?rid ?lit steps ?w1] =>
    destruct (run_steps_success jc rid lit steps w1 (audit w) [] [])
      as (rows & evs & Hloop & Hrows & Hins & Hupd & _)
  end; [cbn; now rewrite app_nil_r | exact Hfresh | constructor | exact Hsucc |].
  cbn [seq session_opened emit] in Hloop |- *. rewrite Hloop.
  exists rows. unfold ret, emit. cbn [fst snd audit trace].
  split; [reflexivity | split; [reflexivity | split; [exact Hrows | split]]].
  - rewrite !audit_inserts_app. cbn [audit_inserts]. rewrite Hins.
    unfold session_opened, emit. cbn [seq trace].
    rewrite !audit_inserts_app. cbn [audit_inserts]. now rewrite !app_nil_r.
  - rewrite !audit_updates_app. cbn [audit_updates]. rewrite Hupd.
    unfold session_opened, emit. cbn [seq trace].
    rewrite !audit_updates_app. cbn [audit_updates]. now rewrite !app_nil_r.
Qed.

(** C2. When the count query over the master table answers zero for the
    job code, the run raises the unknown-job failure after that one query:
    the sequence is not queried (no run id is allocated) and the audit table
    is not written. *)
Theorem C2_unknown_job (job_code conn_id : string) (w : World) :
  PyStr.all_space job_code = false ->
  connection_opens P conn_id ->
  cursor_fault P (env w) = None ->
  let jc := PyStr.strip job_code in
  statement_fault P (SelCount jc) (env w) = None ->
  Z.of_nat (List.length (rows_of_job jc (master w))) = 0%Z ->
  let out := run_etl_job P job_code conn_id w in
  fst out = inl (mkExn RuntimeError ("No steps found for JOB_CODE=" ++ jc))
  /\ seq (snd out) = seq w
  /\ audit (snd out) = audit w
  /\ exists args,
       trace (snd out)
       = (trace w ++ [EvNow; EvConnect args; EvCursor; EvExecute (SelCount jc);
                      EvCursorClose; EvConnectionClose])%list.
Proof.
  intros Hjc Hconn Hcur jc Hfault Hzero out.
  destruct (run_etl_job_connected job_code conn_id w Hjc Hconn Hcur) as [args Hrun].
  subst out. rewrite Hrun. fold jc.
  unfold run_job_body, bind, _fetch_one_int, bind, cur_execute.
  unfold session_opened, emit. cbn [env master audit seq trace perform].
  rewrite Hfault. cbn [fetchone ret fst snd]. unfold ret. rewrite Hzero.
  cbn [Z.eqb raise fst snd audit seq trace].
  repeat split. exists args. now rewrite <- !app_assoc.
Qed.

Lemma Forall2_In_r {A B} (R : A -> B -> Prop) (l : list A) (l' : list B) (y : B) :
  Forall2 R l l' -> In y l' -> exists x, In x l /\ R x y.
Proof.
  induction 1 as [|a b l l' Hab _ IH]; cbn; [tauto|].
  intros [<-|H]; [exists a; auto|].
  destruct (IH H) as (x & Hx & Hr). exists x. auto.
Qed.

Lemma NoDup_app_disjoint {A} (l1 l2 : list A) (x : A) :
  NoDup (l1 ++ l2) -> In x l1 -> In x l2 -> False.
Proof.
  induction l1 as [|a l1 IH]; cbn; [tauto|].
  intros Hnd [->|H1] H2.
  - inversion Hnd as [|? ? Hn _]. apply Hn. apply in_or_app. now right.
  - inversion Hnd. eauto.
Qed.

(** C3. When the SQL of one step fails after the steps before it succeeded,
    the audit table has one row for each step up to the failing one, SUCCESS
    for the earlier steps and FAILED with the error's text for the failing
    one, no row for a later step, and the run raises the job-level failure
    whose text carries the job code, the run id, the failing step's number
    and description, and the error's text. *)
Theorem C3_failing_step (job_code conn_id : string) (w : World)
    (pre : list StepRow) (step : StepRow) (post : list StepRow) (e : Exn) :
  PyStr.all_space job_code = false ->
  connection_opens P conn_id ->
  cursor_fault P (env w) = None ->
  run_id_fresh w ->
  let jc := PyStr.strip job_code in
  let batch_ts := replace_microsecond_0 (utc_now P (env w)) in
  let lit := isoformat " " batch_ts in
  steps_of jc w = (pre ++ step :: post)%list ->
  NoDup (map step_number (steps_of jc w)) ->
  steps_succeed P lit pre (env w) ->
  fst (step_sql_outcome P lit step (env_after P lit pre (env w))) = Some e ->
  let out := run_etl_job P job_code conn_id w in
  exists rows row,
    fst out
    = inl (mkExn RuntimeError
             ("JOB FAILED | JOB=" ++ jc ++ " | RUN_ID=" ++ PyStr.str_of_int (seq w)
              ++ " | STEP=" ++ PyStr.str_of_int (step_number step)
              ++ " | DESC=" ++ step_desc step ++ " | ERROR=" ++ exn_str e))
    /\ audit (snd out) = (audit w ++ rows ++ [row])%list
    /\ Forall2 (succeeded_row (seq w)) pre rows
    /\ failed_row (exn_str e) (seq w) step row
    /\ audit_inserts (trace (snd out))
       = (audit_inserts (trace w) ++ map (pair (seq w)) (pre ++ [step]))%list
    /\ (forall later r,
          In later post -> In r (audit (snd out)) -> a_run_id r = seq w ->
          a_step_number r <> step_number later).
Proof.
  intros Hjc Hconn Hcur Hfresh jc batch_ts lit Hsteps Hnd Hpre Hfail out.
  destruct (run_etl_job_connected job_code conn_id w Hjc Hconn Hcur) as [args Hrun].
  subst out. rewrite Hrun. cbn [fst snd]. fold jc batch_ts.
  assert (Hsteps' : steps_of jc (session_opened args w) = (pre ++ step :: post)%list)
    by exact Hsteps.
  rewrite run_job_body_known_job by (rewrite Hsteps'; now destruct pre).
  rewrite Hsteps'. fold lit. rewrite Hsteps, map_app in Hnd. cbn [map] in Hnd.
  assert (Hnew : ~ In (step_number step) (map step_number pre)).
  { intro Hin. apply NoDup_remove_2 in Hnd. apply Hnd. apply in_or_app. now left. }
  unfold bind.
  match goal with |- context [run_steps P jc ?rid lit _ ?w1] =>
    destruct (run_steps_failure jc rid lit pre step post e w1)
      as (rows & row & evs & e' & Hloop & Hrows & Hrow & Hins & _)
  end; [exact Hfresh | exact Hpre | exact Hfail | exact Hnew |].
  unfold session_opened, emit in Hloop |- *.
  cbn [env master audit seq trace] in Hloop |- *. rewrite Hloop.
  exists rows, row. cbn [fst snd audit trace].
  split; [reflexivity | split; [reflexivity | split; [exact Hrows | split; [exact Hrow | split]]]].
  - rewrite !audit_inserts_app. cbn [audit_inserts]. rewrite Hins.
    now rewrite !app_nil_r.
  - intros later r Hlater Hr Hid Hsn.
    apply in_app_or in Hr as [Hr|Hr].
    { unfold run_id_fresh in Hfresh. rewrite Forall_forall in Hfresh.
      now apply (Hfresh r Hr). }
    assert (Hin : In (step_number later) (map step_number (pre ++ [step]))).
    { rewrite map_app. apply in_or_app.
      apply in_app_or in Hr as [Hr|[<-|[]]].
      - destruct (Forall2_In_r _ _ _ _ Hrows Hr) as (x & Hx & ((_ & _ & _ & _ & Hn & _) & _)).
        left. rewrite <- Hsn, Hn. now apply in_map.
      - right. destruct Hrow as ((_ & _ & _ & _ & Hn & _) & _).
        left. now rewrite <- Hsn, Hn. }
    apply (NoDup_app_disjoint (map step_number (pre ++ [step])) (map step_number post)
             (step_number later)).
    + rewrite map_app, <- app_assoc. exact Hnd.
    + exact Hin.
    + now apply in_map.
Qed.

(** C5. For a step the loop executes, the audit row is inserted in STARTED
    state, with a start date and neither end date nor error message, before
    any of the step's SQL is submitted; the pass ends with one UPDATE of that
    same row, which sets a terminal status and the end date, and adds no
    other row: after the pass the row still describes the step and has the
    start date it was inserted with, its status is the terminal status of the
    UPDATE, SUCCESS or FAILED, and its end date is set. *)
Theorem C5_audit_row_lifecycle (jc : string) (run_id : Z) (lit : string)
    (step : StepRow) (w : World) :
  let inserted := snd (_audit_insert_started P run_id step w) in
  let out := run_step P jc run_id lit step w in
  exists started subs status err final,
    audit inserted = (audit w ++ [started])%list
    /\ row_of_step run_id step started
    /\ load_status started = "STARTED"
    /\ run_start_date started <> None
    /\ run_end_date started = None
    /\ error_message started = None
    /\ trace (snd out)
       = (trace w ++ [EvExecute (InsAudit run_id step)] ++ subs
          ++ [EvExecute (UpdAudit run_id step status err)])%list
    /\ Forall (fun ev => is_submission ev = true) subs
    /\ (status = "SUCCESS" \/ status = "FAILED")
    /\ List.length (audit (snd out)) = S (List.length (audit w))
    /\ nth_error (audit (snd out)) (List.length (audit w)) = Some final
    /\ final = set_terminal (current_timestamp P (env (snd out))) status err started
    /\ row_of_step run_id step final
    /\ load_status final = status
    /\ error_message final = err
    /\ run_end_date final = Some (current_timestamp P (env (snd out)))
    /\ run_start_date final = run_start_date started.
Proof.
  intros inserted out. subst inserted out.
  rewrite audit_insert_started_ok. cbn [snd audit].
  exists (started_record (current_timestamp P (env w)) run_id step),
    (sql_events P lit step (env w)).
  destruct (fst (step_sql_outcome P lit step (env w))) as [e|] eqn:E.
  - rewrite (run_step_failure _ _ _ _ _ _ E). cbn [snd audit trace env].
    exists "FAILED", (Some (exn_str e)). eexists.
    repeat split; try discriminate.
    + apply sql_events_submissions.
    + now right.
    + rewrite length_map, length_app. cbn. lia.
    + rewrite map_app. cbn [map].
      rewrite nth_error_app2 by (rewrite length_map; lia).
      rewrite length_map, Nat.sub_diag. cbn [nth_error].
      now rewrite apply_update_started.
  - rewrite (run_step_success _ _ _ _ _ E). cbn [snd audit trace env].
    exists "SUCCESS", None. eexists.
    repeat split; try discriminate.
    + apply sql_events_submissions.
    + now left.
    + rewrite length_map, length_app. cbn. lia.
    + rewrite map_app. cbn [map].
      rewrite nth_error_app2 by (rewrite length_map; lia).
      rewrite length_map, Nat.sub_diag. cbn [nth_error].
      now rewrite apply_update_started.
Qed.

(** *** What a run may put on the trace, whatever fails *)

Lemma emits_ret Q {A} (a : A) : emits (Env := Env) Q (ret a).
Proof. intro w. exists []. cbn. now rewrite app_nil_r. Qed.

Lemma emits_raise Q {A} (e : Exn) : emits (Env := Env) Q (raise (A := A) e).
Proof. intro w. exists []. cbn. now rewrite app_nil_r. Qed.

Lemma emits_bind Q {A B} (m : M (Env := Env) A) (k : A -> M B) :
  emits Q m -> (forall a, emits Q (k a)) -> emits Q (x <- m ;; k x).
Proof.
  intros Hm Hk w. unfold bind. destruct (Hm w) as (evs & Ht & Hq).
  destruct (m w) as [[e|a] w1]; cbn in *; [now exists evs|].
  destruct (Hk a w1) as (evs' & Ht' & Hq').
  exists (evs ++ evs')%list. split.
  - now rewrite Ht', Ht, app_assoc.
  - apply Forall_app. now split.
Qed.

Lemma emits_try_except Q {A} (m : M (Env := Env) A) (h : Exn -> M A) :
  emits Q m -> (forall e, emits Q (h e)) -> emits Q (try_except m h).
Proof.
  intros Hm Hh w. unfold try_except. destruct (Hm w) as (evs & Ht & Hq).
  destruct (m w) as [[e|a] w1]; cbn in *; [|now exists evs].
  destruct (Hh e w1) as (evs' & Ht' & Hq').
  exists (evs ++ evs')%list. split.
  - now rewrite Ht', Ht, app_assoc.
  - apply Forall_app. now split.
Qed.

Lemma emits_cur_execute (Q : Event -> Prop) (s : Statement) :
  Q (EvExecute s) -> emits Q (cur_execute P s).
Proof.
  intros Hq w. exists [EvExecute s]. split; [|now constructor].
  unfold cur_execute. destruct (statement_fault P s (env w)); [reflexivity|].
  destruct s; reflexivity.
Qed.

Lemma emits_run_sql (Q : Event -> Prop) (ev : Event) (f : Env -> option Exn * Env) :
  Q ev -> emits Q (run_sql ev f).
Proof.
  intros Hq w. exists [ev]. split; [|now constructor].
  unfold run_sql. destruct (f (env w)) as [[e|] e1]; reflexivity.
Qed.

Lemma emits_execute_sql_block (Q : Event -> Prop) (sql : string) :
  Q (EvExecuteMulti (PyStr.strip sql)) -> Q (EvExecuteString (PyStr.strip sql)) ->
  emits Q (_execute_sql_block P sql).
Proof.
  intros Hm Hs. unfold _execute_sql_block.
  destruct (PyStr.is_empty (PyStr.strip sql)); [apply emits_ret|].
  apply emits_try_except; [now apply emits_run_sql|].
  intro e. destruct (is_TypeError e); [now apply emits_run_sql | apply emits_raise].
Qed.

Lemma emits_run_step (jc : string) (run_id : Z) (lit : string)
    (steps : list StepRow) (step : StepRow) :
  In step steps ->
  emits (body_event jc lit steps) (run_step P jc run_id lit step).
Proof.
  intro Hin. unfold run_step, _audit_insert_started, _audit_update.
  apply emits_bind; [|intros _].
  { apply emits_bind; [now apply emits_cur_execute | intro; apply emits_ret]. }
  apply emits_try_except.
  - apply emits_bind; [|intros _].
    + unfold run_step_sql. destruct (etl_logic step) as [l|] eqn:El; [|apply emits_ret].
      destruct (has_logic step); [|apply emits_ret].
      apply emits_execute_sql_block; now exists step, l.
    + apply emits_bind; [now apply emits_cur_execute | intro; apply emits_ret].
  - intro e. apply emits_bind; [|intro; apply emits_raise].
    apply emits_bind; [now apply emits_cur_execute | intro; apply emits_ret].
Qed.

Lemma emits_run_steps (jc : string) (run_id : Z) (lit : string)
    (steps todo : list StepRow) :
  incl todo steps ->
  emits (body_event jc lit steps) (run_steps P jc run_id lit todo).
Proof.
  induction todo as [|st todo IH]; intro Hincl; [apply emits_ret|].
  cbn [run_steps]. apply emits_bind.
  - apply emits_run_step. apply Hincl. now left.
  - intros _. apply IH. intros x Hx. apply Hincl. now right.
Qed.

Lemma emits_fetch_one_int (Q : Event -> Prop) (s : Statement) :
  Q (EvExecute s) -> emits Q (_fetch_one_int P s).
Proof.
  intro Hq. unfold _fetch_one_int. apply emits_bind; [now apply emits_cur_execute|].
  intro rs. destruct (fetchone rs) as [[n|]|]; (apply emits_ret || apply emits_raise).
Qed.

(** The steps the [try] block reads are those of the master table. *)
Lemma fetch_steps_cases (jc : string) (w : World) :
  (exists e, fst (_fetch_steps P jc w) = inl e)
  \/ _fetch_steps P jc w = (inr (steps_of jc w), emit (EvExecute (SelSteps jc)) w).
Proof.
  unfold _fetch_steps, bind, cur_execute.
  destruct (statement_fault P (SelSteps jc) (env w)) as [e|]; [left; now exists e|].
  right. reflexivity.
Qed.

Lemma master_fetch_one_int (s : Statement) (w : World) :
  master (snd (_fetch_one_int P s w)) = master w.
Proof.
  unfold _fetch_one_int, bind, cur_execute.
  destruct (statement_fault P s (env w)); [reflexivity|].
  destruct s; cbn; try reflexivity.
  all: destruct (List.length _); reflexivity.
Qed.

Lemma run_job_body_events (jc : string) (batch_ts : DateTime) (w : World) :
  exists evs,
    trace (snd (run_job_body P jc batch_ts w)) = (trace w ++ evs)%list
    /\ Forall (body_event jc (isoformat " " batch_ts) (steps_of jc w)) evs.
Proof.
  set (Q := body_event jc (isoformat " " batch_ts) (steps_of jc w)).
  unfold run_job_body, bind.
  destruct (emits_fetch_one_int Q (SelCount jc) eq_refl w) as (ev1 & Ht1 & Hq1).
  pose proof (master_fetch_one_int (SelCount jc) w) as Hm1.
  destruct (_fetch_one_int P (SelCount jc) w) as [[e|n] w1]; cbn [fst snd] in *;
    [now exists ev1|].
  destruct (n =? 0)%Z; [cbn; now exists ev1|].
  destruct (emits_fetch_one_int Q SelNextVal I w1) as (ev2 & Ht2 & Hq2).
  pose proof (master_fetch_one_int SelNextVal w1) as Hm2.
  destruct (_fetch_one_int P SelNextVal w1) as [[e|rid] w2]; cbn [fst snd] in *.
  { exists (ev1 ++ ev2)%list. rewrite Ht2, Ht1, app_assoc. split; [reflexivity|].
    apply Forall_app. now split. }
  destruct (fetch_steps_cases jc w2) as [[e He]|Hs].
  - destruct (_fetch_steps P jc w2) as [[e'|x] w3] eqn:E; [|discriminate].
    assert (Ht3 : trace w3 = (trace w2 ++ [EvExecute (SelSteps jc)])%list).
    { unfold _fetch_steps, bind, cur_execute in E.
      destruct (statement_fault P (SelSteps jc) (env w2)); [|discriminate].
      now inversion E. }
    cbn [snd]. exists (ev1 ++ ev2 ++ [EvExecute (SelSteps jc)])%list.
    rewrite Ht3, Ht2, Ht1, <- !app_assoc. split; [reflexivity|].
    repeat (apply Forall_app; split); try assumption. now constructor.
  - rewrite Hs.
    assert (Hsteps : steps_of jc w2 = steps_of jc w)
      by (unfold steps_of; now rewrite Hm2, Hm1).
    rewrite Hsteps.
    destruct (emits_run_steps jc rid (isoformat " " batch_ts) (steps_of jc w)
                (steps_of jc w) (incl_refl _) (emit (EvExecute (SelSteps jc)) w2))
      as (ev4 & Ht4 & Hq4).
    destruct (run_steps P jc rid _ _ _) as [[e|[]] w4]; unfold ret, emit in *;
      cbn [fst snd trace] in *.
    all: exists (ev1 ++ ev2 ++ [EvExecute (SelSteps jc)] ++ ev4)%list.
    all: rewrite Ht4, Ht2, Ht1, <- !app_assoc; split; [reflexivity|].
    all: repeat (apply Forall_app; split); try assumption; now constructor.
Qed.

(** The ways a run with a job code can go: no session, a session the
    driver refuses, a session without cursor, or the [try] block between the
    opening and the two [close] calls. *)
Lemma run_etl_job_shape (job_code conn_id : string) (w : World) :
  PyStr.all_space job_code = false ->
  let jc := PyStr.strip job_code in
  let lit := isoformat " " (replace_microsecond_0 (utc_now P (env w))) in
  let t := trace (snd (run_etl_job P job_code conn_id w)) in
  t = (trace w ++ [EvNow])%list
  \/ (exists args, t = (trace w ++ [EvNow; EvConnect args])%list)
  \/ (exists args, t = (trace w ++ [EvNow; EvConnect args; EvCursor])%list)
  \/ (exists args evs,
        t = (trace w ++ EvNow :: EvConnect args :: EvCursor
               :: evs ++ [EvCursorClose; EvConnectionClose])%list
        /\ Forall (body_event jc lit (steps_of jc w)) evs).
Proof.
  intros Hjc jc lit t. subst t.
  unfold run_etl_job. rewrite blank_guard, Hjc. fold jc.
  unfold bind at 1, datetime_now_utc. unfold bind at 1, _get_snowflake_connection.
  cbn [env emit].
  destruct (get_connection P conn_id) as [e|c]; [now left|].
  destruct (negb (truthy (py_or (dict_get (extra c) "account") (host c))));
    [now left|].
  unfold call.
  match goal with |- context [connect P ?a] =>
    set (args := a); destruct (connect P args) as [e|]
  end.
  - right. left. exists args. cbn. now rewrite <- app_assoc.
  - cbv beta iota. unfold bind, conn_cursor, call. cbn [env emit].
    destruct (cursor_fault P (env w)) as [e|].
    { right. right. left. exists args. cbn. now rewrite <- !app_assoc. }
    right. right. right. exists args.
    rewrite try_finally_release.
    match goal with |- context [run_job_body P jc ?ts ?w1] =>
      destruct (run_job_body_events jc ts w1) as (evs & Ht & Hq)
    end.
    exists evs. split; [|exact Hq].
    cbn [snd trace emit]. rewrite Ht. cbn [trace emit].
    now rewrite <- !app_assoc.
Qed.

(** X18. In every run that gets its connection and its cursor, whatever
    happens inside the [try] block, the last two calls are [cur.close()] and
    [conn.close()], and no other call of the run is a [close]. *)
Theorem session_released_once_cursor_opens (job_code conn_id : string) (w : World) :
  PyStr.all_space job_code = false ->
  connection_opens P conn_id ->
  cursor_fault P (env w) = None ->
  exists args evs,
    trace (snd (run_etl_job P job_code conn_id w))
    = (trace w ++ [EvNow; EvConnect args; EvCursor] ++ evs
       ++ [EvCursorClose; EvConnectionClose])%list
    /\ Forall (fun ev => is_close ev = false) evs.
Proof.
  intros Hjc Hconn Hcur.
  destruct (run_etl_job_connected job_code conn_id w Hjc Hconn Hcur) as [args Hrun].
  rewrite Hrun. exists args.
  match goal with |- context [run_job_body P ?jc ?ts ?w1] =>
    destruct (run_job_body_events jc ts w1) as (evs & Ht & Hq)
  end.
  exists evs. split.
  - cbn [snd trace emit]. rewrite Ht. unfold session_opened. cbn [trace emit].
    now rewrite <- !app_assoc.
  - eapply Forall_impl; [|exact Hq].
    intros [| | |[]| | | |]; cbn; tauto.
Qed.

(** C6. The release is not unconditional.  [conn.cursor()] is called once
    the connection is open and before the [try] block is entered: when it
    raises, the run ends with that exception, the [finally] block is never
    reached, and the connection the driver has opened is left open: the
    calls of the run are the clock read, [connect] and [cursor], and none is
    a [close]. *)
Theorem C6_cursor_failure_leaks_connection (job_code conn_id : string) (w : World)
    (e : Exn) :
  PyStr.all_space job_code = false ->
  connection_opens P conn_id ->
  cursor_fault P (env w) = Some e ->
  exists args,
    connect P args = None
    /\ fst (run_etl_job P job_code conn_id w) = inl e
    /\ trace (snd (run_etl_job P job_code conn_id w))
       = (trace w ++ [EvNow; EvConnect args; EvCursor])%list
    /\ ~ In EvConnectionClose [EvNow; EvConnect args; EvCursor].
Proof.
  intros Hjc (c & a & Hc & Ha & Hne & Hopen) Hcur.
  exists (connect_args c a). split; [exact Hopen|].
  unfold run_etl_job. rewrite blank_guard, Hjc.
  unfold bind, datetime_now_utc, _get_snowflake_connection, conn_cursor, call.
  rewrite Hc, Ha. cbn [truthy negb]. rewrite Hne. cbn [negb].
  rewrite Hopen. cbn [env emit]. rewrite Hcur. unfold emit. cbn [fst snd trace].
  split; [reflexivity | split; [now rewrite <- !app_assoc|]].
  intros [H|[H|[H|[]]]]; discriminate.
Qed.

(** C10. A job code that is empty or all white space makes the run raise
    [ValueError] with nothing done: no clock read, no session, no call.
    For any other job code, every query and every audit write of the run
    carries the job code with leading and trailing white space removed. *)
Theorem C10_job_code_guard (job_code conn_id : string) (w : World) :
  if PyStr.all_space job_code
  then run_etl_job P job_code conn_id w
       = (inl (mkExn ValueError "job_code is required"), w)
  else exists evs,
         trace (snd (run_etl_job P job_code conn_id w)) = (trace w ++ evs)%list
         /\ Forall (carries_job_code (PyStr.strip job_code)) evs.
Proof.
  destruct (PyStr.all_space job_code) eqn:Hjc.
  - unfold run_etl_job. now rewrite blank_guard, Hjc.
  - destruct (run_etl_job_shape job_code conn_id w Hjc)
      as [Ht | [(args & Ht) | [(args & Ht) | (args & evs & Ht & Hq)]]]; rewrite Ht.
    + eexists. split; [reflexivity | repeat constructor].
    + eexists. split; [reflexivity | repeat constructor].
    + eexists. split; [reflexivity | repeat constructor].
    + eexists. split; [reflexivity|].
      do 3 (constructor; [exact I|]).
      apply Forall_app. split; [|repeat constructor].
      eapply Forall_impl; [|exact Hq].
      intros [| | |[]| | | |]; cbn; try tauto; apply steps_of_job_code.
Qed.

(** *** The SQL block executor *)

(** C7. On an empty or all-white-space text the SQL block executor submits
    nothing and returns normally: the world is left as it was. *)
Theorem C7_blank_sql_is_noop (sql_text : string) (w : World) :
  PyStr.all_space sql_text = true ->
  _execute_sql_block P sql_text w = (inr tt, w).
Proof.
  intro H. apply strip_all_space in H.
  unfold _execute_sql_block. now rewrite H.
Qed.

(** The executor on a text that is not blank, by what the driver answers. *)
Lemma execute_sql_block_cases (sql_text : string) (w : World) :
  PyStr.all_space sql_text = false ->
  let s := PyStr.strip sql_text in
  let out := _execute_sql_block P sql_text w in
  let t1 := (trace w ++ [EvExecuteMulti s])%list in
  let t2 := (trace w ++ [EvExecuteMulti s; EvExecuteString s])%list in
  match execute_multi P s (env w) with
  | (None, e1) => out = (inr tt, mkWorld e1 (master w) (audit w) (seq w) t1)
  | (Some x, e1) =>
      if is_TypeError x
      then match execute_string P s e1 with
           | (None, e2) => out = (inr tt, mkWorld e2 (master w) (audit w) (seq w) t2)
           | (Some y, e2) => out = (inl y, mkWorld e2 (master w) (audit w) (seq w) t2)
           end
      else out = (inl x, mkWorld e1 (master w) (audit w) (seq w) t1)
  end.
Proof.
  intros H s out t1 t2. subst out t1 t2.
  assert (Hs : PyStr.is_empty s = false).
  { destruct (PyStr.is_empty s) eqn:E; [|reflexivity].
    apply is_empty_true in E. apply strip_all_space in E. congruence. }
  unfold _execute_sql_block. fold s. rewrite Hs.
  unfold try_except, cur_execute_multi, conn_execute_string, run_sql, raise.
  destruct (execute_multi P s (env w)) as [[x|] e1]; [|reflexivity].
  destruct (is_TypeError x); [|reflexivity].
  unfold set_env, emit. cbn [env master audit seq trace].
  destruct (execute_string P s e1) as [[y|] e2]; now rewrite <- app_assoc.
Qed.

(** C8. On a text that is not blank the executor first makes the native
    multi-statement call.  It makes the session-level call after it exactly
    when the native call raised [TypeError]; any other exception of the native
    call, and any exception of the session-level call, is raised to the
    caller, and the executor returns normally only if the call it made last
    did. *)
Theorem C8_native_then_fallback (sql_text : string) (w : World) :
  PyStr.all_space sql_text = false ->
  let s := PyStr.strip sql_text in
  let out := _execute_sql_block P sql_text w in
  let native := execute_multi P s (env w) in
  let fallback := execute_string P s (snd native) in
  let mismatch := match fst native with Some x => is_TypeError x | None => false end in
  (exists rest,
      trace (snd out) = (trace w ++ EvExecuteMulti s :: rest)%list
      /\ rest = if mismatch then [EvExecuteString s] else [])
  /\ (forall x, fst native = Some x -> is_TypeError x = false -> fst out = inl x)
  /\ (forall y, mismatch = true -> fst fallback = Some y -> fst out = inl y)
  /\ (fst out = inr tt <->
       fst native = None \/ (mismatch = true /\ fst fallback = None)).
Proof.
  intros H s out native fallback mismatch.
  pose proof (execute_sql_block_cases sql_text w H) as Hc.
  cbv zeta in Hc. fold s out in Hc. subst mismatch fallback native.
  destruct (execute_multi P s (env w)) as [[x|] e1]; cbn [fst snd] in *.
  - destruct (is_TypeError x) eqn:Ex.
    + destruct (execute_string P s e1) as [[y|] e2]; cbn [fst snd] in *;
        rewrite Hc; cbn [fst snd trace].
      * split; [now exists [EvExecuteString s]|].
        split; [intros x' [= <-] Hx; congruence|].
        split; [now intros y' _ [= <-]|].
        split; [discriminate | intros [?|[_ ?]]; discriminate].
      * split; [now exists [EvExecuteString s]|].
        split; [intros x' [= <-] Hx; congruence|].
        split; [discriminate|].
        split; [right; now split | reflexivity].
    + rewrite Hc. cbn [fst snd trace].
      split; [now exists []|].
      split; [now intros x' [= <-] _|]. split; [discriminate|].
      split; [discriminate | intros [?|[? _]]; discriminate].
  - rewrite Hc. cbn [fst snd trace].
    split; [now exists []|].
    split; [discriminate|]. split; [discriminate|].
    split; [now left | reflexivity].
Qed.

(** *** Connection resolution *)

(** C9. When the connection record has no account, neither under
    [account] in the Extra JSON nor in the Host field, connection resolution
    raises the configuration error without calling the driver, and the run
    ends there: nothing but the clock was read, no session exists and the
    warehouse was not called. *)
Theorem C9_missing_account (job_code conn_id : string) (c : Connection) (w : World) :
  PyStr.all_space job_code = false ->
  get_connection P conn_id = inr c ->
  truthy (dict_get (extra c) "account") = false ->
  truthy (host c) = false ->
  let failure := mkExn ValueError (missing_account_message conn_id) in
  _get_snowflake_connection P conn_id w = (inl failure, w)
  /\ run_etl_job P job_code conn_id w = (inl failure, emit EvNow w)
  /\ Forall (fun ev => is_database_call ev = false) [EvNow].
Proof.
  intros Hjc Hc Hextra Hhost failure.
  assert (Hres : forall w', _get_snowflake_connection P conn_id w' = (inl failure, w')).
  { intro w'. unfold _get_snowflake_connection. rewrite Hc.
    unfold py_or. rewrite Hextra, Hhost. reflexivity. }
  split; [apply Hres | split; [|repeat constructor]].
  unfold run_etl_job. rewrite blank_guard, Hjc.
  unfold bind at 1, datetime_now_utc. unfold bind at 1. now rewrite Hres.
Qed.

(** *** The steps a run starts and the texts it submits *)

Lemma native_texts_app (t1 t2 : list Event) :
  native_texts (t1 ++ t2) = (native_texts t1 ++ native_texts t2)%list.
Proof.
  induction t1 as [|ev t1 IH]; [reflexivity|].
  destruct ev; cbn; now rewrite IH.
Qed.

(** The logic of a step that has some is still not blank once the token
    is replaced. *)
Lemma step_text_not_empty (lit : string) (step : StepRow) (l : string) :
  etl_logic step = Some l -> has_logic step = true ->
  PyStr.is_empty (PyStr.strip (PyStr.replace BATCH_TS_TOKEN (quoted lit) l)) = false.
Proof.
  intros Hl Hlogic. unfold has_logic in Hlogic. rewrite Hl in Hlogic.
  apply andb_true_iff in Hlogic as [_ Hs]. apply negb_true_iff in Hs.
  destruct (PyStr.is_empty
              (PyStr.strip (PyStr.replace BATCH_TS_TOKEN (quoted lit) l))) eqn:E;
    [|reflexivity].
  apply is_empty_true in E. apply strip_all_space in E.
  unfold quoted, BATCH_TS_TOKEN in E. cbn [append] in E.
  apply all_space_replace in E; [|reflexivity].
  apply strip_all_space in E. rewrite E in Hs. discriminate.
Qed.

(** A step that has logic submits its own text, with the token replaced,
    through the native call, once; a step without logic submits nothing. *)
Lemma sql_events_native_texts (lit : string) (step : StepRow) (e : Env) :
  native_texts (sql_events P lit step e)
  = if has_logic step then [step_text (quoted lit) step] else [].
Proof.
  unfold sql_events, run_step_sql, step_text.
  destruct (etl_logic step) as [l|] eqn:Hl.
  2:{ unfold has_logic. now rewrite Hl. }
  destruct (has_logic step) eqn:Hlogic; [|reflexivity].
  unfold _execute_sql_block. rewrite (step_text_not_empty lit step l Hl Hlogic).
  unfold try_except, cur_execute_multi, conn_execute_string, run_sql, raise.
  cbn [bare env master audit seq trace emit set_env].
  destruct (execute_multi P _ e) as [[x|] e1]; cbn; [|reflexivity].
  destruct (is_TypeError x); cbn; [|reflexivity].
  destruct (execute_string P _ e1) as [[x'|] e2]; reflexivity.
Qed.

Lemma step_events_native_texts run_id lit step e status err evs :
  native_texts
    ((EvExecute (InsAudit run_id step)
        :: sql_events P lit step e ++ [EvExecute (UpdAudit run_id step status err)])
       ++ evs)
  = ((if has_logic step then [step_text (quoted lit) step] else [])
     ++ native_texts evs)%list.
Proof.
  rewrite native_texts_app. cbn [native_texts]. rewrite native_texts_app.
  rewrite sql_events_native_texts. cbn [native_texts]. now rewrite app_nil_r.
Qed.

(** The loop starts the first [k] steps, one after the other, and submits
    the text of each of them that has logic; [k] is the number of steps if
    all succeed, and the position of the first step that fails otherwise. *)
Lemma run_steps_prefix (jc : string) (run_id : Z) (lit : string)
    (steps : list StepRow) :
  forall w : World,
    exists k evs,
      trace (snd (run_steps P jc run_id lit steps w)) = (trace w ++ evs)%list
      /\ audit_inserts evs = map (pair run_id) (firstn k steps)
      /\ native_texts evs
         = map (step_text (quoted lit)) (filter has_logic (firstn k steps))
      /\ (steps_succeed P lit steps (env w) -> k = List.length steps)
      /\ (forall pre st post e,
            steps = (pre ++ st :: post)%list ->
            steps_succeed P lit pre (env w) ->
            fst (step_sql_outcome P lit st (env_after P lit pre (env w))) = Some e ->
            k = S (List.length pre)).
Proof.
  induction steps as [|st steps IH]; intro w.
  - exists O, []. cbn. rewrite app_nil_r.
    repeat (split; [reflexivity|]). intros [|? ?] ? ? ? H; discriminate.
  - cbn [run_steps]. unfold bind.
    destruct (fst (step_sql_outcome P lit st (env w))) as [x|] eqn:E.
    + rewrite (run_step_failure _ _ _ _ _ _ E). cbn [snd trace].
      exists 1%nat. eexists. split; [reflexivity|].
      split; [|split; [|split]].
      * cbn [audit_inserts firstn map]. rewrite audit_inserts_app.
        now rewrite audit_inserts_submissions by apply sql_events_submissions.
      * cbn [native_texts firstn filter]. rewrite native_texts_app.
        rewrite sql_events_native_texts. cbn [native_texts]. rewrite app_nil_r.
        now destruct (has_logic st).
      * intros [Hok _]. congruence.
      * intros [|p pre] st' post e' Hsplit Hpre Hfail; [reflexivity|].
        injection Hsplit as <- _. destruct Hpre as [Hok _]. congruence.
    + rewrite (run_step_success _ _ _ _ _ E).
      match goal with |- context [run_steps P jc run_id lit steps ?w1] =>
        destruct (IH w1) as (k & evs & Ht & Hi & Hn & Hall & Hfirst)
      end.
      cbn [env] in Hall, Hfirst.
      rewrite Ht. cbn [trace]. exists (S k). eexists.
      split; [now rewrite <- app_assoc|].
      split; [|split; [|split]].
      * rewrite step_events_inserts. cbn [firstn map]. now rewrite Hi.
      * rewrite step_events_native_texts, Hn. cbn [firstn filter].
        now destruct (has_logic st).
      * intros [_ Hrest]. cbn [List.length]. now rewrite (Hall Hrest).
      * intros [|p pre] st' post e' Hsplit Hpre Hfail.
        { injection Hsplit as <- _. cbn in Hfail. congruence. }
        injection Hsplit as <- Hsplit. destruct Hpre as [_ Hpre].
        cbn [List.length]. f_equal. exact (Hfirst pre st' post e' Hsplit Hpre Hfail).
Qed.

(** The same for a whole run that gets its session. *)
Lemma run_etl_job_started_steps (job_code conn_id : string) (w : World) :
  PyStr.all_space job_code = false ->
  connection_opens P conn_id ->
  cursor_fault P (env w) = None ->
  let jc := PyStr.strip job_code in
  let lit := isoformat " " (replace_microsecond_0 (utc_now P (env w))) in
  let steps := steps_of jc w in
  let out := run_etl_job P job_code conn_id w in
  exists k,
    audit_inserts (trace (snd out))
    = (audit_inserts (trace w) ++ map (pair (seq w)) (firstn k steps))%list
    /\ native_texts (trace (snd out))
       = (native_texts (trace w)
          ++ map (step_text (quoted lit)) (filter has_logic (firstn k steps)))%list
    /\ (steps_succeed P lit steps (env w) -> k = List.length steps)
    /\ (forall pre st post e,
          steps = (pre ++ st :: post)%list ->
          steps_succeed P lit pre (env w) ->
          fst (step_sql_outcome P lit st (env_after P lit pre (env w))) = Some e ->
          k = S (List.length pre)).
Proof.
  intros Hjc Hconn Hcur jc lit steps out. subst out.
  destruct (run_etl_job_connected job_code conn_id w Hjc Hconn Hcur) as [args Hrun].
  rewrite Hrun. fold jc. cbn [snd].
  set (batch_ts := replace_microsecond_0 (utc_now P (env w))).
  set (w1 := session_opened args w).
  assert (Hi1 : audit_inserts (trace w1) = audit_inserts (trace w)).
  { unfold w1, session_opened, emit. cbn [trace].
    rewrite !audit_inserts_app. cbn. now rewrite !app_nil_r. }
  assert (Hn1 : native_texts (trace w1) = native_texts (trace w)).
  { unfold w1, session_opened, emit. cbn [trace].
    rewrite !native_texts_app. cbn. now rewrite !app_nil_r. }
  assert (Hci : forall w2 : World,
             audit_inserts (trace (emit EvConnectionClose (emit EvCursorClose w2)))
             = audit_inserts (trace w2)).
  { intro w2. unfold emit. cbn [trace]. rewrite !audit_inserts_app. cbn.
    now rewrite !app_nil_r. }
  assert (Hcn : forall w2 : World,
             native_texts (trace (emit EvConnectionClose (emit EvCursorClose w2)))
             = native_texts (trace w2)).
  { intro w2. unfold emit. cbn [trace]. rewrite !native_texts_app. cbn.
    now rewrite !app_nil_r. }
  rewrite Hci, Hcn.
  destruct (Nat.eq_dec (List.length (rows_of_job jc (master w))) 0) as [Hlen|Hlen].
  - assert (Hnil : steps = []).
    { apply length_zero_iff_nil. unfold steps, steps_of.
      now rewrite length_order_by_step_number. }
    exists O. rewrite Hnil.
    unfold run_job_body, bind. rewrite fetch_count_ok.
    change (master w1) with (master w).
    rewrite Hlen. cbn [Z.of_nat Z.eqb]. unfold raise, emit. cbn [snd trace].
    rewrite audit_inserts_app, native_texts_app, Hi1, Hn1. cbn.
    rewrite !app_nil_r.
    repeat (split; [reflexivity|]). intros [|? ?] ? ? ? H; discriminate.
  - assert (Hsteps : steps_of jc w1 <> []).
    { intro Hnil. apply Hlen. rewrite <- length_order_by_step_number.
      change (order_by_step_number (rows_of_job jc (master w))) with (steps_of jc w1).
      now rewrite Hnil. }
    rewrite run_job_body_known_job by exact Hsteps.
    change (seq w1) with (seq w).
    unfold bind.
    match goal with |- context [run_steps P jc ?rid ?l ?st ?w2] =>
      destruct (run_steps_prefix jc rid l st w2)
        as (k & evs & Ht & Hi & Hn & Hall & Hfirst);
      destruct (run_steps P jc rid l st w2) as [[e|[]] w3]
    end; cbn [snd ret env] in Ht, Hall, Hfirst |- *.
    all: exists k; rewrite Ht; cbn [trace];
      rewrite !audit_inserts_app, !native_texts_app, Hi1, Hn1, Hi, Hn; cbn;
      rewrite !app_nil_r.
    all: split; [reflexivity | split; [reflexivity | split; [exact Hall | exact Hfirst]]].
Qed.

End RunnerFacts.

(** ** The batch timestamp *)

Section BatchTimestamp.

Context {Env : Type} (P : Platform Env).

(** C4. In a run with a job code the clock is read once, before anything
    else, and every SQL text submitted afterwards is a step's logic in which
    the token [$BATCH_TS] was replaced by one and the same literal, the
    reading cut to the second and written as ['YYYY-MM-DD HH:MM:SS+00:00'].
    Every step the run starts that has logic has its own text, with the
    token replaced by that literal, submitted, one native submission for each
    such step and in the order of the steps; in a run all of whose steps
    succeed these are all the steps of the job.  The replacement is textual:
    every occurrence of the token is replaced, and a text without the token
    is left as it is. *)
Theorem C4_batch_timestamp (job_code conn_id : string) (w : World Env) :
  PyStr.all_space job_code = false ->
  let now := utc_now P (env w) in
  let lit := "'" ++ isoformat " " (replace_microsecond_0 now) ++ "'" in
  let steps := steps_of (PyStr.strip job_code) w in
  let out := run_etl_job P job_code conn_id w in
  (exists rest,
      trace (snd out) = (trace w ++ EvNow :: rest)%list
      /\ Forall (uses_literal lit steps) rest)
  /\ lit = "'" ++ PyStr.pad4 (year now) ++ "-" ++ PyStr.pad2 (month now)
           ++ "-" ++ PyStr.pad2 (day now) ++ " " ++ PyStr.pad2 (hour now)
           ++ ":" ++ PyStr.pad2 (minute now) ++ ":" ++ PyStr.pad2 (second now)
           ++ "+00:00'"
  /\ (forall a b,
        PyStr.replace "$BATCH_TS" lit (a ++ "$BATCH_TS" ++ b)
        = PyStr.replace "$BATCH_TS" lit a ++ lit ++ PyStr.replace "$BATCH_TS" lit b)
  /\ (forall s,
        PyStr.contains "$BATCH_TS" s = false -> PyStr.replace "$BATCH_TS" lit s = s)
  /\ (control_statements_ok P ->
      connection_opens P conn_id ->
      cursor_fault P (env w) = None ->
      exists k,
        audit_inserts (trace (snd out))
        = (audit_inserts (trace w) ++ map (pair (seq w)) (firstn k steps))%list
        /\ native_texts (trace (snd out))
           = (native_texts (trace w)
              ++ map (step_text lit) (filter has_logic (firstn k steps)))%list
        /\ (steps_succeed P (isoformat " " (replace_microsecond_0 now)) steps (env w) ->
            k = List.length steps)).
Proof.
  intros Hjc now lit steps out.
  split; [|split; [reflexivity | split; [|split]]].
  - assert (Hbody : forall ev,
               body_event (PyStr.strip job_code)
                 (isoformat " " (replace_microsecond_0 now)) steps ev ->
               uses_literal lit steps ev).
    { intros ev Hev. split.
      - intros ->. exact Hev.
      - intros sql [->| ->]; exact Hev. }
    assert (Hother : forall ev,
               is_submission ev = false -> ev <> EvNow -> uses_literal lit steps ev).
    { intros ev Hs Hn. split; [exact Hn|]. intros sql [->| ->]; discriminate. }
    subst out.
    destruct (run_etl_job_shape P job_code conn_id w Hjc)
      as [Ht | [(args & Ht) | [(args & Ht) | (args & evs & Ht & Hq)]]]; rewrite Ht.
    + exists []. split; [reflexivity | constructor].
    + exists [EvConnect args]. split; [reflexivity|].
      constructor; [now apply Hother | constructor].
    + exists [EvConnect args; EvCursor]. split; [reflexivity|].
      constructor; [now apply Hother|]. constructor; [now apply Hother | constructor].
    + eexists. split; [reflexivity|].
      constructor; [now apply Hother|]. constructor; [now apply Hother|].
      apply Forall_app. split.
      * eapply Forall_impl; [exact Hbody | exact Hq].
      * constructor; [now apply Hother|]. constructor; [now apply Hother | constructor].
  - intros a b. apply replace_token_occurrence.
  - intros s Hs. now apply replace_absent.
  - intros Hok Hconn Hcur.
    destruct (run_etl_job_started_steps P Hok job_code conn_id w Hjc Hconn Hcur)
      as (k & Hi & Hn & Hall & _).
    exists k. split; [exact Hi | split; [exact Hn | exact Hall]].
Qed.

End BatchTimestamp.

(** ** The properties on the concrete deployment *)

Lemma scenario_control_ok (native : bool) :
  control_statements_ok (Scenario.platform native).
Proof. intros s e. reflexivity. Defined.

Lemma scenario_connection_opens (native : bool) :
  connection_opens (Scenario.platform native) "snowflake_adwbi".
Proof. exists Scenario.conn, "acme". repeat split. Defined.

Lemma C1_successful_run_witness :
  exists rows,
    fst (run_etl_job (Scenario.platform true) " JOB_01 " "snowflake_adwbi"
           Scenario.world0)
    = inr "SUCCESS: JOB_CODE=JOB_01, RUN_ID=100, BATCH_TS=2026-01-05T07:30:00+00:00"
    /\ audit (snd (run_etl_job (Scenario.platform true) " JOB_01 " "snowflake_adwbi"
                     Scenario.world0)) = rows
    /\ Forall2 (succeeded_row 100) [Scenario.load_t; Scenario.mark_done] rows.
Proof.
  destruct (C1_successful_run (Scenario.platform true) (scenario_control_ok true)
              " JOB_01 " "snowflake_adwbi" Scenario.world0)
    as (rows & Hres & Haudit & Hrows & _).
  - reflexivity.
  - apply scenario_connection_opens.
  - reflexivity.
  - apply Forall_nil.
  - vm_compute. repeat constructor.
  - vm_compute. repeat split.
  - exists rows. split; [exact Hres | split; [exact Haudit | exact Hrows]].
Defined.

Lemma C2_unknown_job_witness :
  fst (run_etl_job (Scenario.platform true) "JOB_09" "snowflake_adwbi" Scenario.world0)
  = inl (mkExn RuntimeError "No steps found for JOB_CODE=JOB_09")
  /\ seq (snd (run_etl_job (Scenario.platform true) "JOB_09" "snowflake_adwbi"
                 Scenario.world0)) = 100%Z
  /\ audit (snd (run_etl_job (Scenario.platform true) "JOB_09" "snowflake_adwbi"
                   Scenario.world0)) = [].
Proof.
  destruct (C2_unknown_job (Scenario.platform true) "JOB_09" "snowflake_adwbi"
              Scenario.world0)
    as (Hres & Hseq & Haudit & _).
  - reflexivity.
  - apply scenario_connection_opens.
  - reflexivity.
  - reflexivity.
  - reflexivity.
  - split; [exact Hres | split; [exact Hseq | exact Haudit]].
Defined.

Lemma C3_failing_step_witness :
  exists rows row,
    fst (run_etl_job (Scenario.platform true) "JOB_03" "snowflake_adwbi" Scenario.world0)
    = inl (mkExn RuntimeError
             "JOB FAILED | JOB=JOB_03 | RUN_ID=100 | STEP=2 | DESC=merge | ERROR=SQL compilation error: NO_SUCH_TABLE does not exist")
    /\ audit (snd (run_etl_job (Scenario.platform true) "JOB_03" "snowflake_adwbi"
                     Scenario.world0)) = (rows ++ [row])%list
    /\ Forall2 (succeeded_row 100) [Scenario.stage] rows
    /\ failed_row "SQL compilation error: NO_SUCH_TABLE does not exist" 100
         Scenario.merge row.
Proof.
  destruct (C3_failing_step (Scenario.platform true) (scenario_control_ok true)
              "JOB_03" "snowflake_adwbi" Scenario.world0
              [Scenario.stage] Scenario.merge [Scenario.publish]
              (mkExn DriverError "SQL compilation error: NO_SUCH_TABLE does not exist"))
    as (rows & row & Hres & Haudit & Hrows & Hrow & _).
  - reflexivity.
  - apply scenario_connection_opens.
  - reflexivity.
  - apply Forall_nil.
  - reflexivity.
  - vm_compute. repeat (constructor; [cbn; intuition discriminate|]). constructor.
  - vm_compute. repeat split.
  - reflexivity.
  - exists rows, row.
    split; [exact Hres | split; [exact Haudit | split; [exact Hrows | exact Hrow]]].
Defined.

Lemma C4_batch_timestamp_witness :
  (exists rest,
      trace (snd (run_etl_job (Scenario.platform true) "JOB_01" "snowflake_adwbi"
                    Scenario.world0)) = EvNow :: rest
      /\ Forall (uses_literal "'2026-01-05 07:30:00+00:00'"
                   [Scenario.load_t; Scenario.mark_done]) rest)
  /\ native_texts
       (trace (snd (run_etl_job (Scenario.platform true) "JOB_01" "snowflake_adwbi"
                      Scenario.world0)))
     = ["INSERT INTO T SELECT * FROM S WHERE ts = '2026-01-05 07:30:00+00:00'"].
Proof.
  destruct (C4_batch_timestamp (Scenario.platform true) "JOB_01" "snowflake_adwbi"
              Scenario.world0)
    as ((rest & Ht & Hq) & _ & _ & _ & Hstarted).
  - reflexivity.
  - split; [exists rest; split; [exact Ht | exact Hq]|].
    destruct Hstarted as (k & _ & Htexts & Hall).
    + apply scenario_control_ok.
    + apply scenario_connection_opens.
    + reflexivity.
    + rewrite Hall in Htexts; [exact Htexts|].
      vm_compute. repeat split.
Defined.

Lemma C5_audit_row_lifecycle_witness :
  exists subs status err final,
    trace (snd (run_step (Scenario.platform true) "JOB_01" 100
                  "2026-01-05 07:30:00+00:00" Scenario.load_t Scenario.world0))
    = ([EvExecute (InsAudit 100 Scenario.load_t)] ++ subs
       ++ [EvExecute (UpdAudit 100 Scenario.load_t status err)])%list
    /\ Forall (fun ev => is_submission ev = true) subs
    /\ nth_error
         (audit (snd (run_step (Scenario.platform true) "JOB_01" 100
                        "2026-01-05 07:30:00+00:00" Scenario.load_t Scenario.world0)))
         0 = Some final
    /\ load_status final = status
    /\ run_end_date final = Some 1%Z.
Proof.
  destruct (C5_audit_row_lifecycle (Scenario.platform true) (scenario_control_ok true)
              "JOB_01" 100 "2026-01-05 07:30:00+00:00" Scenario.load_t Scenario.world0)
    as (started & subs & status & err & final & _ & _ & _ & _ & _ & _ & Ht & Hs & _
        & _ & Hnth & _ & _ & Hstatus & _ & Hend & _).
  exists subs, status, err, final.
  split; [exact Ht | split; [exact Hs | split; [exact Hnth | split; [exact Hstatus|]]]].
  exact Hend.
Defined.

Lemma session_released_once_cursor_opens_witness :
  exists args evs,
    trace (snd (run_etl_job (Scenario.platform true) "JOB_03" "snowflake_adwbi"
                  Scenario.world0))
    = ([EvNow; EvConnect args; EvCursor] ++ evs
       ++ [EvCursorClose; EvConnectionClose])%list
    /\ Forall (fun ev => is_close ev = false) evs.
Proof.
  apply (session_released_once_cursor_opens (Scenario.platform true) "JOB_03"
           "snowflake_adwbi" Scenario.world0).
  - reflexivity.
  - apply scenario_connection_opens.
  - reflexivity.
Defined.

Lemma C6_cursor_failure_leaks_connection_witness :
  exists args,
    fst (run_etl_job Scenario.platform_losing_session "JOB_01" "snowflake_adwbi"
           Scenario.world0) = inl Scenario.session_lost
    /\ trace (snd (run_etl_job Scenario.platform_losing_session "JOB_01"
                     "snowflake_adwbi" Scenario.world0))
       = [EvNow; EvConnect args; EvCursor].
Proof.
  destruct (C6_cursor_failure_leaks_connection Scenario.platform_losing_session
              "JOB_01" "snowflake_adwbi" Scenario.world0 Scenario.session_lost)
    as (args & _ & Hres & Ht & _).
  - reflexivity.
  - exists Scenario.conn, "acme".
    split; [reflexivity | split; [reflexivity | split; reflexivity]].
  - reflexivity.
  - exists args. split; [exact Hres | exact Ht].
Defined.

Lemma C7_blank_sql_is_noop_witness :
  _execute_sql_block (Scenario.platform true) "  " Scenario.world0
  = (inr tt, Scenario.world0).
Proof.
  apply (C7_blank_sql_is_noop (Scenario.platform true) "  " Scenario.world0).
  reflexivity.
Defined.

Lemma C8_native_then_fallback_witness :
  trace (snd (_execute_sql_block (Scenario.platform false) " SELECT 1; SELECT 2; "
                Scenario.world0))
  = [EvExecuteMulti "SELECT 1; SELECT 2;"; EvExecuteString "SELECT 1; SELECT 2;"].
Proof.
  destruct (C8_native_then_fallback (Scenario.platform false) " SELECT 1; SELECT 2; "
              Scenario.world0)
    as ((rest & Ht & Hrest) & _).
  - reflexivity.
  - rewrite Ht, Hrest. reflexivity.
Defined.

Lemma C9_missing_account_witness :
  run_etl_job (Scenario.platform true) "JOB_01" "snowflake_draft" Scenario.world0
  = (inl (mkExn ValueError (missing_account_message "snowflake_draft")),
     emit EvNow Scenario.world0).
Proof.
  apply (C9_missing_account (Scenario.platform true) "JOB_01" "snowflake_draft"
           Scenario.conn_without_account Scenario.world0); reflexivity.
Defined.

(** * Further properties *)

(** ** More on strings *)

Section MoreStringFacts.

Import PyStr.

Lemma rstrip_idempotent (s : string) : rstrip (rstrip s) = rstrip s.
Proof.
  induction s as [|c s IH]; [reflexivity|].
  cbn [rstrip]. destruct (is_space c && is_empty (rstrip s)) eqn:E; [reflexivity|].
  cbn [rstrip]. now rewrite IH, E.
Qed.

(** [rstrip] keeps a first character that is not white space. *)
Lemma rstrip_head (c : ascii) (t : string) :
  is_space c = false -> rstrip (String c t) = String c (rstrip t).
Proof. intro H. cbn [rstrip]. now rewrite H. Qed.

Lemma strip_idempotent (s : string) : strip (strip s) = strip s.
Proof.
  unfold strip.
  destruct (lstrip_head s) as [E | (c & t & E & Hc)]; rewrite E; [reflexivity|].
  rewrite (rstrip_head _ _ Hc). cbn [lstrip]. rewrite Hc.
  rewrite <- (rstrip_head _ _ Hc). apply rstrip_idempotent.
Qed.

Lemma all_space_strip (s : string) : all_space (strip s) = all_space s.
Proof.
  destruct (all_space s) eqn:E.
  - apply strip_all_space in E. now rewrite E.
  - destruct (all_space (strip s)) eqn:E'; [|reflexivity].
    apply strip_all_space in E'. rewrite strip_idempotent in E'.
    apply strip_all_space in E'. congruence.
Qed.

(** [s] is white space, then what [lstrip] keeps. *)
Lemma lstrip_suffix (s : string) : exists a, s = a ++ lstrip s.
Proof.
  induction s as [|c s [a IH]]; [now exists ""|].
  cbn [lstrip]. destruct (is_space c); [|now exists ""].
  exists (String c a). cbn. now rewrite <- IH.
Qed.

(** [s] is what [rstrip] keeps, then white space. *)
Lemma rstrip_prefix (s : string) : exists b, s = rstrip s ++ b.
Proof.
  induction s as [|c s [b IH]]; [now exists ""|].
  cbn [rstrip]. destruct (is_space c && is_empty (rstrip s)); [now exists (String c s)|].
  exists b. cbn. now rewrite <- IH.
Qed.

Lemma contains_app_r (t a b : string) :
  contains t b = true -> contains t (a ++ b) = true.
Proof.
  intro H. induction a as [|c a IH]; [exact H|].
  change (String c a ++ b) with (String c (a ++ b)).
  cbn [contains]. rewrite IH. apply orb_true_r.
Qed.

Lemma contains_app_l (t a b : string) :
  contains t a = true -> contains t (a ++ b) = true.
Proof.
  induction a as [|c a IH]; intro H.
  - destruct t; [now destruct b | discriminate].
  - change (String c a ++ b) with (String c (a ++ b)).
    cbn [contains] in *. apply orb_true_iff in H as [H|H].
    + apply prefix_app_l with (x := b) in H.
      change (String c a ++ b) with (String c (a ++ b)) in H. now rewrite H.
    + rewrite (IH H). apply orb_true_r.
Qed.

(** Stripping cannot make a text contain what it did not contain. *)
Lemma contains_strip (t s : string) :
  contains t s = false -> contains t (strip s) = false.
Proof.
  intro H. destruct (contains t (strip s)) eqn:E; [|reflexivity].
  unfold strip in E.
  destruct (rstrip_prefix (lstrip s)) as [b Hb].
  destruct (lstrip_suffix s) as [a Ha].
  apply contains_app_l with (b := b) in E. rewrite <- Hb in E.
  apply contains_app_r with (a := a) in E. rewrite <- Ha in E. congruence.
Qed.

(** *** No token is left after the replacement *)

Lemma has_char_app (c : ascii) (a b : string) :
  has_char c (a ++ b) = has_char c a || has_char c b.
Proof.
  induction a as [|x a IH]; [reflexivity|].
  cbn. now rewrite IH, orb_assoc.
Qed.

(** A text without dollar sign in front adds no occurrence of the token. *)
Lemma contains_token_app (n y : string) :
  has_char "$" n = false ->
  contains "$BATCH_TS" (n ++ y) = contains "$BATCH_TS" y.
Proof.
  induction n as [|c n IH]; intro H; [reflexivity|].
  cbn [has_char] in H. apply orb_false_iff in H as [Hc Hn].
  change (String c n ++ y) with (String c (n ++ y)).
  cbn [contains]. rewrite (IH Hn).
  cbn [prefix]. destruct (ascii_dec "$" c) as [<-|_]; [discriminate | reflexivity].
Qed.

Section TokenGone.

(** The replacement text: it starts with [q], which is no character of the
    token, and has no dollar sign. *)
Variables (q : ascii) (new' : string).
Let new := String q new'.
Hypothesis q_fresh : has_char q "$BATCH_TS" = false.
Hypothesis new_no_dollar : has_char "$" new = false.

(** After a kept character, the output can only go on like the token if
    the input does. *)
Lemma prefix_replace_inv (t : string) :
  has_char q t = false ->
  forall s, prefix t (replace "$BATCH_TS" new s) = true -> prefix t s = true.
Proof.
  induction t as [|a t IH]; intros Ht s H; [now destruct s|].
  cbn [has_char] in Ht. apply orb_false_iff in Ht as [Ha Ht].
  destruct s as [|c s].
  - rewrite replace_empty in H by reflexivity. discriminate.
  - destruct (prefix "$BATCH_TS" (String c s)) eqn:E.
    + apply prefix_spec in E as [r E]. rewrite E in H.
      rewrite replace_match in H by reflexivity.
      unfold new in H. cbn [append prefix] in H.
      destruct (ascii_dec a q) as [->|_]; [|discriminate].
      now rewrite Ascii.eqb_refl in Ha.
    + rewrite replace_keep in H by (reflexivity || exact E).
      cbn [prefix] in *. destruct (ascii_dec a c); [|discriminate].
      now apply IH.
Qed.

Lemma prefix_token_replace (s : string) :
  prefix "$BATCH_TS" (replace "$BATCH_TS" new s) = false.
Proof.
  destruct (prefix "$BATCH_TS" (replace "$BATCH_TS" new s)) eqn:H; [|reflexivity].
  exfalso. destruct s as [|c s].
  - rewrite replace_empty in H by reflexivity. discriminate.
  - destruct (prefix "$BATCH_TS" (String c s)) eqn:E.
    + apply prefix_spec in E as [r E]. rewrite E in H.
      rewrite replace_match in H by reflexivity.
      unfold new in H. cbn [append prefix] in H.
      destruct (ascii_dec "$" q) as [<-|_]; [|discriminate].
      cbn in q_fresh. discriminate.
    + rewrite replace_keep in H by (reflexivity || exact E).
      assert (E' : prefix "$BATCH_TS" (String c s) = true); [|congruence].
      cbn [prefix] in H |- *. destruct (ascii_dec "$" c); [|discriminate].
      apply (prefix_replace_inv "BATCH_TS"); [|exact H].
      cbn [has_char] in q_fresh. now apply orb_false_iff in q_fresh as [_ ?].
Qed.

Lemma replace_token_gone (s : string) :
  contains "$BATCH_TS" (replace "$BATCH_TS" new s) = false.
Proof.
  remember (String.length s) as n eqn:Hn. revert s Hn.
  induction n as [n IH] using lt_wf_ind. intros s Hn.
  destruct s as [|c s].
  - rewrite replace_empty by reflexivity. reflexivity.
  - destruct (prefix "$BATCH_TS" (String c s)) eqn:E.
    + apply prefix_spec in E as [r E]. rewrite E.
      rewrite replace_match by reflexivity.
      rewrite contains_token_app by exact new_no_dollar.
      apply (IH (String.length r)); [|reflexivity].
      subst n. rewrite E, string_length_app. cbn. lia.
    + pose proof (prefix_token_replace (String c s)) as Hp.
      rewrite replace_keep in * by (reflexivity || exact E).
      cbn [contains]. rewrite Hp. cbn [orb].
      apply (IH (String.length s)); [subst n; cbn; lia | reflexivity].
Qed.

End TokenGone.

Lemma digit_not_dollar (n : N) : Ascii.eqb (digit n) "$" = false.
Proof.
  unfold digit.
  assert (Hb : (n mod 10 < 10)%N) by (apply N.mod_upper_bound; discriminate).
  remember (n mod 10)%N as r eqn:Hr. clear Hr.
  assert (H : (r = 0 \/ r = 1 \/ r = 2 \/ r = 3 \/ r = 4 \/ r = 5 \/ r = 6
               \/ r = 7 \/ r = 8 \/ r = 9)%N) by lia.
  repeat destruct H as [H|H]; rewrite H; reflexivity.
Qed.

(** The literal of a batch timestamp has no dollar sign. *)
Lemma literal_no_dollar (dt : DateTime) :
  has_char "$" (quoted (isoformat " " (replace_microsecond_0 dt))) = false.
Proof.
  unfold quoted, isoformat, replace_microsecond_0, pad4, pad2.
  cbn -[digit N.div N.modulo].
  now rewrite !digit_not_dollar.
Qed.

(** No token is left in a text in which it was replaced by the literal. *)
Lemma literal_replaces_all (dt : DateTime) (s : string) :
  contains "$BATCH_TS"
    (replace "$BATCH_TS" (quoted (isoformat " " (replace_microsecond_0 dt))) s)
  = false.
Proof.
  pose proof (literal_no_dollar dt) as H.
  unfold quoted in *. cbn [append] in *.
  apply replace_token_gone; [reflexivity | exact H].
Qed.

End MoreStringFacts.

(** ** More on the runner *)

Section MoreRunnerFacts.

Context {Env : Type} (P : Platform Env).

Local Abbreviation World := (World Env).

Notation "x <- m ;; k" := (bind m (fun x => k))
  (at level 61, m at next level, right associativity).
Notation "m ;; k" := (bind m (fun _ => k))
  (at level 61, right associativity).

(** *** What a run leaves alone, whatever fails *)

Section Frame.

Variables (run_id : Z) (init : list AuditRecord).
Hypothesis init_other_runs : Forall (fun r => a_run_id r <> run_id) init.

Local Abbreviation F := (run_frame (Env := Env) run_id init).

Lemma frame_refl (w : World) : F w w.
Proof. split; [reflexivity | split; [reflexivity | auto]]. Qed.

Lemma frame_trans (w1 w2 w3 : World) : F w1 w2 -> F w2 w3 -> F w1 w3.
Proof.
  intros (Hm & Hs & Ha) (Hm' & Hs' & Ha').
  split; [congruence | split; [congruence | auto]].
Qed.

Lemma frame_emit (ev : Event) (w : World) : F w (emit ev w).
Proof. split; [reflexivity | split; [reflexivity | auto]]. Qed.

Lemma frame_set_env (e : Env) (w : World) : F w (set_env e w).
Proof. split; [reflexivity | split; [reflexivity | auto]]. Qed.

Lemma keeps_ret {A} (a : A) : keeps F (ret a).
Proof. intro w. apply frame_refl. Qed.

Lemma keeps_raise {A} (e : Exn) : keeps F (raise (A := A) e).
Proof. intro w. apply frame_refl. Qed.

Lemma keeps_bind {A B} (m : M (Env := Env) A) (k : A -> M B) :
  keeps F m -> (forall a, keeps F (k a)) -> keeps F (x <- m ;; k x).
Proof.
  intros Hm Hk w. unfold bind. specialize (Hm w).
  destruct (m w) as [[e|a] w1]; cbn in *; [exact Hm|].
  eapply frame_trans; [exact Hm | apply Hk].
Qed.

Lemma keeps_try_except {A} (m : M (Env := Env) A) (h : Exn -> M A) :
  keeps F m -> (forall e, keeps F (h e)) -> keeps F (try_except m h).
Proof.
  intros Hm Hh w. unfold try_except. specialize (Hm w).
  destruct (m w) as [[e|a] w1]; cbn in *; [|exact Hm].
  eapply frame_trans; [exact Hm | apply Hh].
Qed.

Lemma keeps_run_sql (ev : Event) (f : Env -> option Exn * Env) :
  keeps F (run_sql ev f).
Proof.
  intro w. unfold run_sql. destruct (f (env w)) as [[e|] e1]; cbn;
    (eapply frame_trans; [apply frame_emit | apply frame_set_env]).
Qed.

Lemma keeps_insert (step : StepRow) : keeps F (cur_execute P (InsAudit run_id step)).
Proof.
  intro w. unfold cur_execute.
  destruct (statement_fault P _ (env w)); cbn; [apply frame_emit|].
  split; [reflexivity | split; [reflexivity|]]. intros (rows & Ha & Hr). cbn.
  eexists. rewrite Ha, <- app_assoc. split; [reflexivity|].
  apply Forall_app. split; [exact Hr | now repeat constructor].
Qed.

Lemma keeps_update (step : StepRow) (status : string) (err : option string) :
  keeps F (cur_execute P (UpdAudit run_id step status err)).
Proof.
  intro w. unfold cur_execute.
  destruct (statement_fault P _ (env w)); cbn; [apply frame_emit|].
  split; [reflexivity | split; [reflexivity|]]. intros (rows & Ha & Hr). cbn.
  eexists. rewrite Ha, map_app.
  rewrite map_apply_update_other_run by exact init_other_runs.
  split; [reflexivity|].
  apply Forall_forall. intros r Hin. apply in_map_iff in Hin as (r0 & <- & Hin0).
  rewrite Forall_forall in Hr. specialize (Hr r0 Hin0).
  unfold apply_update. now destruct (update_matches _ _ _ r0).
Qed.

Lemma keeps_execute_sql_block (sql : string) : keeps F (_execute_sql_block P sql).
Proof.
  unfold _execute_sql_block. destruct (PyStr.is_empty _); [apply keeps_ret|].
  apply keeps_try_except; [apply keeps_run_sql|].
  intro e. destruct (is_TypeError e); [apply keeps_run_sql | apply keeps_raise].
Qed.

Lemma keeps_run_step (jc lit : string) (step : StepRow) :
  keeps F (run_step P jc run_id lit step).
Proof.
  unfold run_step, _audit_insert_started, _audit_update.
  apply keeps_bind; [|intros _].
  { apply keeps_bind; [apply keeps_insert | intro; apply keeps_ret]. }
  apply keeps_try_except.
  - apply keeps_bind; [|intros _].
    + unfold run_step_sql. destruct (etl_logic step); [|apply keeps_ret].
      destruct (has_logic step); [apply keeps_execute_sql_block | apply keeps_ret].
    + apply keeps_bind; [apply keeps_update | intro; apply keeps_ret].
  - intro e. apply keeps_bind; [|intro; apply keeps_raise].
    apply keeps_bind; [apply keeps_update | intro; apply keeps_ret].
Qed.

Lemma keeps_run_steps (jc lit : string) (steps : list StepRow) :
  keeps F (run_steps P jc run_id lit steps).
Proof.
  induction steps as [|st steps IH]; [apply keeps_ret|].
  cbn [run_steps]. apply keeps_bind; [apply keeps_run_step | intros _; exact IH].
Qed.

End Frame.

Lemma fetch_count_frame (jc : string) (w : World) :
  let w1 := snd (_fetch_one_int P (SelCount jc) w) in
  master w1 = master w /\ seq w1 = seq w /\ audit w1 = audit w.
Proof.
  unfold _fetch_one_int, bind, cur_execute.
  destruct (statement_fault P _ (env w)); cbn; auto.
Qed.

Lemma fetch_nextval_frame (w : World) :
  let out := _fetch_one_int P SelNextVal w in
  master (snd out) = master w /\ audit (snd out) = audit w
  /\ (seq (snd out) = seq w \/ seq (snd out) = (seq w + 1)%Z)
  /\ (forall n, fst out = inr n -> n = seq w).
Proof.
  unfold _fetch_one_int, bind, cur_execute.
  destruct (statement_fault P _ (env w)); cbn.
  - repeat split; auto. discriminate.
  - repeat split; auto. now intros n [= <-].
Qed.

Lemma fetch_steps_frame (jc : string) (w : World) :
  let w1 := snd (_fetch_steps P jc w) in
  master w1 = master w /\ seq w1 = seq w /\ audit w1 = audit w.
Proof.
  unfold _fetch_steps, bind, cur_execute.
  destruct (statement_fault P _ (env w)); cbn; auto.
Qed.

(** The [try] block: the master table is left alone, the sequence gives at
    most one value, and the audit table keeps its rows and gains rows of the
    run only. *)
Lemma run_job_body_frame (jc : string) (batch_ts : DateTime) (w : World) :
  let w' := snd (run_job_body P jc batch_ts w) in
  master w' = master w
  /\ (seq w' = seq w \/ seq w' = (seq w + 1)%Z)
  /\ (run_id_fresh w -> run_rows (seq w) (audit w) w').
Proof.
  intro w'. subst w'.
  assert (Hrows0 : forall w0 : World, audit w0 = audit w -> run_rows (seq w) (audit w) w0).
  { intros w0 H0. exists []. rewrite H0, app_nil_r. split; [reflexivity | constructor]. }
  unfold run_job_body, bind.
  pose proof (fetch_count_frame jc w) as (Hm1 & Hs1 & Ha1).
  destruct (_fetch_one_int P (SelCount jc) w) as [[e|n] w1]; cbn [fst snd] in *.
  { split; [exact Hm1 | split; [now left | intros _; now apply Hrows0]]. }
  destruct (n =? 0)%Z; cbn [raise fst snd].
  { split; [exact Hm1 | split; [now left | intros _; now apply Hrows0]]. }
  pose proof (fetch_nextval_frame w1) as (Hm2 & Ha2 & Hs2 & Hn2).
  destruct (_fetch_one_int P SelNextVal w1) as [[e|rid] w2]; cbn [fst snd] in *.
  { split; [congruence | split; [rewrite <- Hs1; exact Hs2 |]].
    intros _. apply Hrows0. congruence. }
  assert (Hrid : rid = seq w) by (rewrite <- Hs1; now apply Hn2).
  subst rid.
  pose proof (fetch_steps_frame jc w2) as (Hm3 & Hs3 & Ha3).
  destruct (_fetch_steps P jc w2) as [[e|steps] w3]; cbn [fst snd] in *.
  { split; [congruence | split; [rewrite <- Hs1, Hs3; exact Hs2 |]].
    intros _. apply Hrows0. congruence. }
  pose proof (keeps_run_steps (seq w) [] (Forall_nil _) jc
                (isoformat " " batch_ts) steps w3) as (Hm & Hs & _).
  pose proof (fun H => keeps_run_steps (seq w) (audit w) H jc
                (isoformat " " batch_ts) steps w3) as Ha.
  destruct (run_steps P jc (seq w) _ steps w3) as [[e|[]] w4]; cbn [fst snd ret] in *.
  all: split; [congruence | split; [rewrite <- Hs1, Hs, Hs3; exact Hs2 |]].
  all: intro Hfresh; apply (Ha Hfresh); apply Hrows0; congruence.
Qed.

(** The worlds a run can end in. *)
Lemma run_etl_job_world (job_code conn_id : string) (w : World) :
  let out := run_etl_job P job_code conn_id w in
  snd out = w
  \/ snd out = emit EvNow w
  \/ (exists args, snd out = emit (EvConnect args) (emit EvNow w))
  \/ (exists args, snd out = emit EvCursor (emit (EvConnect args) (emit EvNow w)))
  \/ (exists args,
        snd out
        = emit EvConnectionClose
            (emit EvCursorClose
               (snd (run_job_body P (PyStr.strip job_code)
                       (replace_microsecond_0 (utc_now P (env w)))
                       (session_opened args w))))).
Proof.
  intro out. subst out. unfold run_etl_job.
  destruct (_ || _); [now left|].
  unfold bind at 1, datetime_now_utc. unfold bind at 1, _get_snowflake_connection.
  cbn [env emit].
  destruct (get_connection P conn_id) as [e|c]; [right; now left|].
  destruct (negb _); [right; now left|].
  unfold call.
  match goal with |- context [connect P ?a] =>
    set (args := a); destruct (connect P args) as [e|]
  end.
  - right. right. left. now exists args.
  - cbv beta iota. unfold bind, conn_cursor, call. cbn [env emit].
    destruct (cursor_fault P (env w)) as [e|].
    { right. right. right. left. now exists args. }
    right. right. right. right. exists args. now rewrite try_finally_release.
Qed.

(** X1. Whatever the input and whatever fails, a run never changes the
    master table and takes at most one value from the run-id sequence. *)
Theorem run_leaves_master_and_takes_one_id (job_code conn_id : string) (w : World) :
  let out := run_etl_job P job_code conn_id w in
  master (snd out) = master w
  /\ (seq (snd out) = seq w \/ seq (snd out) = (seq w + 1)%Z).
Proof.
  intro out. subst out.
  destruct (run_etl_job_world job_code conn_id w)
    as [H | [H | [(args & H) | [(args & H) | (args & H)]]]]; rewrite H;
    try (cbn; now auto).
  cbn [emit master seq].
  match goal with |- context [run_job_body P ?jc ?ts ?w1] =>
    destruct (run_job_body_frame jc ts w1) as (Hm & Hs & _)
  end.
  split; [exact Hm | exact Hs].
Qed.

(** X2. Whatever fails, a run keeps every row the audit table had, in
    place and unchanged, and the rows it adds all carry the value the
    sequence was about to give. *)
Theorem run_only_appends_its_own_rows (job_code conn_id : string) (w : World) :
  run_id_fresh w ->
  exists rows,
    audit (snd (run_etl_job P job_code conn_id w)) = (audit w ++ rows)%list
    /\ Forall (fun r => a_run_id r = seq w) rows.
Proof.
  intro Hfresh.
  assert (Hsame : forall w0 : World, audit w0 = audit w ->
            exists rows, audit w0 = (audit w ++ rows)%list
                         /\ Forall (fun r => a_run_id r = seq w) rows).
  { intros w0 H0. exists []. rewrite H0, app_nil_r. split; [reflexivity | constructor]. }
  destruct (run_etl_job_world job_code conn_id w)
    as [H | [H | [(args & H) | [(args & H) | (args & H)]]]]; rewrite H;
    try (now apply Hsame).
  cbn [emit audit].
  match goal with |- context [run_job_body P ?jc ?ts ?w1] =>
    destruct (run_job_body_frame jc ts w1) as (_ & _ & Ha)
  end.
  apply Ha. exact Hfresh.
Qed.

(** X3. Once the job is known and the sequence has answered, the run id
    is spent: the sequence has moved by one at the end of the run, whether
    the steps succeed, a step fails or a later statement is refused. *)
Theorem run_id_is_not_given_back (job_code conn_id : string) (w : World) :
  PyStr.all_space job_code = false ->
  connection_opens P conn_id ->
  cursor_fault P (env w) = None ->
  let jc := PyStr.strip job_code in
  statement_fault P (SelCount jc) (env w) = None ->
  statement_fault P SelNextVal (env w) = None ->
  rows_of_job jc (master w) <> [] ->
  seq (snd (run_etl_job P job_code conn_id w)) = (seq w + 1)%Z.
Proof.
  intros Hjc Hconn Hcur jc Hc Hn Hrows.
  destruct (run_etl_job_connected P job_code conn_id w Hjc Hconn Hcur) as [args Hrun].
  rewrite Hrun. fold jc. cbn [snd emit seq].
  set (w1 := session_opened args w).
  assert (Hcount : _fetch_one_int P (SelCount jc) w1
                   = (inr (Z.of_nat (List.length (rows_of_job jc (master w)))),
                      emit (EvExecute (SelCount jc)) w1)).
  { unfold _fetch_one_int, bind, cur_execute.
    change (env w1) with (env w). now rewrite Hc. }
  unfold run_job_body, bind. rewrite Hcount.
  destruct (Z.eqb_spec (Z.of_nat (List.length (rows_of_job jc (master w)))) 0) as [E|_].
  { exfalso. apply Hrows. apply length_zero_iff_nil. lia. }
  set (w2 := emit (EvExecute (SelCount jc)) w1).
  assert (Hnext : _fetch_one_int P SelNextVal w2
                  = (inr (seq w), set_seq (seq w + 1)%Z (emit (EvExecute SelNextVal) w2))).
  { unfold _fetch_one_int, bind, cur_execute.
    change (env w2) with (env w). now rewrite Hn. }
  rewrite Hnext.
  set (w3 := set_seq (seq w + 1)%Z (emit (EvExecute SelNextVal) w2)).
  pose proof (fetch_steps_frame jc w3) as (_ & Hs3 & _).
  destruct (_fetch_steps P jc w3) as [[e|steps] w4]; cbn [fst snd] in *; [exact Hs3|].
  pose proof (keeps_run_steps (seq w) [] (Forall_nil _) jc
                (isoformat " " (replace_microsecond_0 (utc_now P (env w)))) steps w4)
    as (_ & Hs & _).
  destruct (run_steps P jc (seq w) _ steps w4) as [[e|[]] w5]; cbn [fst snd ret] in *;
    now rewrite Hs, Hs3.
Qed.

(** X4. No SQL text a run submits contains the token [$BATCH_TS]: the
    replacement leaves none behind, whatever the steps' SQL is. *)
Theorem submitted_sql_has_no_token (job_code conn_id : string) (w : World) :
  exists evs,
    trace (snd (run_etl_job P job_code conn_id w)) = (trace w ++ evs)%list
    /\ forall sql,
         In (EvExecuteMulti sql) evs \/ In (EvExecuteString sql) evs ->
         PyStr.contains "$BATCH_TS" sql = false.
Proof.
  destruct (PyStr.all_space job_code) eqn:Hjc.
  { exists []. unfold run_etl_job. rewrite blank_guard, Hjc. cbn.
    rewrite app_nil_r. split; [reflexivity | intros sql [[]|[]]]. }
  destruct (run_etl_job_shape P job_code conn_id w Hjc)
    as [Ht | [(args & Ht) | [(args & Ht) | (args & evs & Ht & Hq)]]]; rewrite Ht.
  - eexists. split; [reflexivity|].
    intros sql [[H|[]]|[H|[]]]; discriminate.
  - eexists. split; [reflexivity|].
    intros sql [[H|[H|[]]]|[H|[H|[]]]]; discriminate.
  - eexists. split; [reflexivity|].
    intros sql [[H|[H|[H|[]]]]|[H|[H|[H|[]]]]]; discriminate.
  - eexists. split; [reflexivity|].
    assert (Hin : forall ev, In ev (EvNow :: EvConnect args :: EvCursor
                                      :: evs ++ [EvCursorClose; EvConnectionClose]) ->
                   is_submission ev = true -> In ev evs).
    { intros ev [<-|[<-|[<-|Hin]]]; try discriminate.
      apply in_app_or in Hin as [Hin|[<-|[<-|[]]]]; try discriminate. now intros _. }
    rewrite Forall_forall in Hq.
    intros sql [H|H]; apply Hin in H; try reflexivity;
      destruct (Hq _ H) as (st & l & _ & _ & ->);
      apply contains_strip, literal_replaces_all.
Qed.

(** X5. White space around the job code makes no difference: a run with
    a padded job code is the run with the stripped one. *)
Theorem run_ignores_padding (job_code conn_id : string) (w : World) :
  run_etl_job P job_code conn_id w = run_etl_job P (PyStr.strip job_code) conn_id w.
Proof.
  unfold run_etl_job. rewrite !blank_guard.
  now rewrite all_space_strip, strip_idempotent.
Qed.

(** *** The loop body at its edges *)

Lemma insert_started_no_fault (run_id : Z) (step : StepRow) (w : World) :
  statement_fault P (InsAudit run_id step) (env w) = None ->
  _audit_insert_started P run_id step w
  = (inr tt,
     mkWorld (env w) (master w)
       (audit w ++ [started_record (current_timestamp P (env w)) run_id step])%list
       (seq w) (trace w ++ [EvExecute (InsAudit run_id step)])%list).
Proof.
  intro H. unfold _audit_insert_started, bind, cur_execute, ret. now rewrite H.
Qed.

Lemma audit_update_no_fault (run_id : Z) (step : StepRow) (status : string)
    (err : option string) (w : World) :
  statement_fault P (UpdAudit run_id step status err) (env w) = None ->
  _audit_update P run_id step status err w
  = (inr tt,
     mkWorld (env w) (master w)
       (map (apply_update (current_timestamp P (env w)) run_id step status err) (audit w))
       (seq w) (trace w ++ [EvExecute (UpdAudit run_id step status err)])%list).
Proof.
  intro H. unfold _audit_update, bind, cur_execute, ret. now rewrite H.
Qed.

Lemma audit_update_fault (run_id : Z) (step : StepRow) (status : string)
    (err : option string) (w : World) (e : Exn) :
  statement_fault P (UpdAudit run_id step status err) (env w) = Some e ->
  _audit_update P run_id step status err w
  = (inl e, emit (EvExecute (UpdAudit run_id step status err)) w).
Proof.
  intro H. unfold _audit_update, bind, cur_execute. now rewrite H.
Qed.

(** A step without SQL has no outcome of its own. *)
Lemma step_without_logic (lit : string) (step : StepRow) (w : World) :
  has_logic step = false -> run_step_sql P lit step w = (inr tt, w).
Proof.
  intro H. unfold run_step_sql. rewrite H. now destruct (etl_logic step).
Qed.

(** X6. A step whose logic is absent, empty or all white space is a
    no-op that counts as a success: nothing is submitted, the warehouse is as
    before, and the step's audit row goes from STARTED to SUCCESS. *)
Theorem step_without_sql_succeeds (jc : string) (run_id : Z) (lit : string)
    (step : StepRow) (w : World) :
  control_statements_ok P ->
  has_logic step = false ->
  let out := run_step P jc run_id lit step w in
  fst out = inr tt
  /\ env (snd out) = env w
  /\ trace (snd out)
     = (trace w ++ [EvExecute (InsAudit run_id step);
                    EvExecute (UpdAudit run_id step "SUCCESS" None)])%list
  /\ audit (snd out)
     = (map (apply_update (current_timestamp P (env w)) run_id step "SUCCESS" None)
            (audit w)
        ++ [set_terminal (current_timestamp P (env w)) "SUCCESS" None
              (started_record (current_timestamp P (env w)) run_id step)])%list
  /\ exists final,
       nth_error (audit (snd out)) (List.length (audit w)) = Some final
       /\ row_of_step run_id step final
       /\ load_status final = "SUCCESS"
       /\ error_message final = None
       /\ run_end_date final = Some (current_timestamp P (env w)).
Proof.
  intros Hok Hlogic out. subst out.
  unfold run_step, bind, try_except.
  rewrite insert_started_no_fault by apply Hok.
  rewrite step_without_logic by exact Hlogic.
  rewrite audit_update_no_fault by apply Hok.
  cbn [fst snd env trace audit].
  split; [reflexivity | split; [reflexivity | split; [|split]]].
  - now rewrite <- app_assoc.
  - rewrite map_app. cbn [map]. now rewrite apply_update_started.
  - eexists. split; [|split; [|split; [|split]]].
    + rewrite map_app. cbn [map].
      rewrite nth_error_app2 by (rewrite length_map; lia).
      rewrite length_map, Nat.sub_diag. cbn [nth_error].
      now rewrite apply_update_started.
    + apply row_of_step_started.
    + reflexivity.
    + reflexivity.
    + reflexivity.
Qed.

(** X7. When the INSERT of the STARTED row is refused, the pass stops
    there: the exception goes up as it is, not wrapped into the job-level
    failure, none of the step's SQL is submitted, no UPDATE is attempted and
    the audit table is as before. *)
Theorem refused_insert_stops_the_step (jc : string) (run_id : Z) (lit : string)
    (step : StepRow) (w : World) (e : Exn) :
  statement_fault P (InsAudit run_id step) (env w) = Some e ->
  run_step P jc run_id lit step w = (inl e, emit (EvExecute (InsAudit run_id step)) w).
Proof.
  intro H. unfold run_step, bind, _audit_insert_started, bind, cur_execute.
  now rewrite H.
Qed.

(** X8. When the step's SQL ran to its end but the UPDATE to SUCCESS is
    refused, the step is treated as failed: the row is set to FAILED with the
    text of the refusal, and the job-level failure is raised with that text,
    although the step's SQL has taken effect. *)
Theorem refused_success_update_fails_the_step (jc : string) (run_id : Z)
    (lit : string) (step : StepRow) (w : World) (e : Exn) :
  let after := snd (step_sql_outcome P lit step (env w)) in
  statement_fault P (InsAudit run_id step) (env w) = None ->
  fst (step_sql_outcome P lit step (env w)) = None ->
  statement_fault P (UpdAudit run_id step "SUCCESS" None) after = Some e ->
  statement_fault P (UpdAudit run_id step "FAILED" (Some (exn_str e))) after = None ->
  let out := run_step P jc run_id lit step w in
  fst out = inl (mkExn RuntimeError (job_failed_message jc run_id step (exn_str e)))
  /\ env (snd out) = after
  /\ trace (snd out)
     = (trace w ++ EvExecute (InsAudit run_id step) :: sql_events P lit step (env w)
        ++ [EvExecute (UpdAudit run_id step "SUCCESS" None);
            EvExecute (UpdAudit run_id step "FAILED" (Some (exn_str e)))])%list
  /\ audit (snd out)
     = (map (apply_update (current_timestamp P after) run_id step "FAILED"
               (Some (exn_str e))) (audit w)
        ++ [set_terminal (current_timestamp P after) "FAILED" (Some (exn_str e))
              (started_record (current_timestamp P (env w)) run_id step)])%list
  /\ exists final,
       nth_error (audit (snd out)) (List.length (audit w)) = Some final
       /\ row_of_step run_id step final
       /\ load_status final = "FAILED"
       /\ error_message final = Some (exn_str e)
       /\ run_end_date final = Some (current_timestamp P after).
Proof.
  intros after Hins Hsql Hup Hfail out. subst out.
  unfold run_step, bind, try_except.
  rewrite insert_started_no_fault by exact Hins.
  rewrite run_step_sql_frame. cbn [env master audit seq trace]. rewrite Hsql.
  cbn [result_of]. fold after.
  rewrite (audit_update_fault _ _ _ _ _ e) by exact Hup.
  unfold emit. cbn [env master audit seq trace].
  rewrite audit_update_no_fault by exact Hfail.
  unfold raise. cbn [fst snd env trace audit].
  split; [reflexivity | split; [reflexivity | split; [|split]]].
  - now rewrite <- !app_assoc.
  - rewrite map_app. cbn [map]. now rewrite apply_update_started.
  - eexists. split; [|split; [|split; [|split]]].
    + rewrite map_app. cbn [map].
      rewrite nth_error_app2 by (rewrite length_map; lia).
      rewrite length_map, Nat.sub_diag. cbn [nth_error].
      now rewrite apply_update_started.
    + apply row_of_step_started.
    + reflexivity.
    + reflexivity.
    + reflexivity.
Qed.

(** X9. When the step's SQL fails and the UPDATE to FAILED is refused as
    well, the refusal is what the pass raises: the error of the step's SQL
    and the job-level text are lost, and the row stays STARTED. *)
Theorem refused_failed_update_masks_the_error (jc : string) (run_id : Z)
    (lit : string) (step : StepRow) (w : World) (e e' : Exn) :
  let after := snd (step_sql_outcome P lit step (env w)) in
  statement_fault P (InsAudit run_id step) (env w) = None ->
  fst (step_sql_outcome P lit step (env w)) = Some e ->
  statement_fault P (UpdAudit run_id step "FAILED" (Some (exn_str e))) after = Some e' ->
  let out := run_step P jc run_id lit step w in
  fst out = inl e'
  /\ trace (snd out)
     = (trace w ++ EvExecute (InsAudit run_id step) :: sql_events P lit step (env w)
        ++ [EvExecute (UpdAudit run_id step "FAILED" (Some (exn_str e)))])%list
  /\ audit (snd out)
     = (audit w ++ [started_record (current_timestamp P (env w)) run_id step])%list.
Proof.
  intros after Hins Hsql Hfail out. subst out.
  unfold run_step, bind, try_except.
  rewrite insert_started_no_fault by exact Hins.
  rewrite run_step_sql_frame. cbn [env master audit seq trace]. rewrite Hsql.
  cbn [result_of]. fold after.
  rewrite (audit_update_fault _ _ _ _ _ e') by exact Hfail.
  unfold emit. cbn [fst snd env trace audit].
  split; [reflexivity | split; [|reflexivity]].
  now rewrite <- !app_assoc.
Qed.

(** *** The steps as the runner reads them *)

Lemma insert_by_step_number_perm (r : StepRow) (l : list StepRow) :
  Permutation (insert_by_step_number r l) (r :: l).
Proof.
  induction l as [|x l IH]; cbn; [reflexivity|].
  destruct (step_number r <=? step_number x)%Z; [reflexivity|].
  rewrite IH. apply perm_swap.
Qed.

Lemma order_by_step_number_perm (l : list StepRow) :
  Permutation (order_by_step_number l) l.
Proof.
  induction l as [|x l IH]; [reflexivity|].
  unfold order_by_step_number in *. cbn [fold_right].
  rewrite insert_by_step_number_perm. now constructor.
Qed.

Lemma insert_by_step_number_hd (a r : StepRow) (l : list StepRow) :
  step_le a r -> HdRel step_le a l -> HdRel step_le a (insert_by_step_number r l).
Proof.
  intros Har Hl. destruct l as [|x l]; cbn; [now constructor|].
  destruct (step_number r <=? step_number x)%Z; constructor; [exact Har|].
  now inversion Hl.
Qed.

Lemma insert_by_step_number_sorted (r : StepRow) (l : list StepRow) :
  Sorted step_le l -> Sorted step_le (insert_by_step_number r l).
Proof.
  induction 1 as [|x l Hs IH Hhd]; cbn; [repeat constructor|].
  destruct (Z.leb_spec (step_number r) (step_number x)) as [Hle|Hgt].
  - constructor; [now constructor | now constructor].
  - constructor; [exact IH|].
    apply insert_by_step_number_hd; [unfold step_le; lia | exact Hhd].
Qed.

Lemma order_by_step_number_sorted (l : list StepRow) :
  Sorted step_le (order_by_step_number l).
Proof.
  induction l as [|x l IH]; [constructor|].
  unfold order_by_step_number in *. cbn [fold_right].
  now apply insert_by_step_number_sorted.
Qed.

(** X10. When the query is not refused, [_fetch_steps] returns the rows
    of the master table that carry the job code, all of them and each as
    often as the table has it, in ascending order of step number; a job code
    without rows gives the empty list, not an error. *)
Theorem fetch_steps_sorted_rows_of_job (jc : string) (w : World) :
  statement_fault P (SelSteps jc) (env w) = None ->
  exists steps,
    _fetch_steps P jc w = (inr steps, emit (EvExecute (SelSteps jc)) w)
    /\ Permutation steps (filter (fun r => String.eqb (job_code r) jc) (master w))
    /\ Sorted step_le steps
    /\ (rows_of_job jc (master w) = [] -> steps = []).
Proof.
  intro H. exists (steps_of jc w).
  split; [|split; [apply order_by_step_number_perm
                  | split; [apply order_by_step_number_sorted|]]].
  - unfold _fetch_steps, bind, cur_execute, ret. now rewrite H.
  - unfold steps_of. now intros ->.
Qed.

(** *** Success and order *)

Lemma steps_succeed_dec (lit : string) (steps : list StepRow) (e : Env) :
  steps_succeed P lit steps e \/ ~ steps_succeed P lit steps e.
Proof.
  revert e. induction steps as [|st steps IH]; intro e; cbn; [now left|].
  destruct (fst (step_sql_outcome P lit st e)) as [x|].
  - right. intros [H _]. discriminate.
  - destruct (IH (snd (step_sql_outcome P lit st e))) as [H|H]; [left | right]; tauto.
Qed.

Section WithControl.

Hypothesis control_ok : control_statements_ok P.

Lemma run_steps_not_succeed (jc : string) (run_id : Z) (lit : string)
    (steps : list StepRow) :
  forall w : World,
    ~ steps_succeed P lit steps (env w) ->
    exists e, fst (run_steps P jc run_id lit steps w) = inl e.
Proof.
  induction steps as [|st steps IH]; intros w Hn; [exfalso; now apply Hn|].
  cbn [run_steps]. unfold bind.
  destruct (fst (step_sql_outcome P lit st (env w))) as [x|] eqn:E.
  - rewrite (run_step_failure P control_ok _ _ _ _ _ _ E). eexists. reflexivity.
  - rewrite (run_step_success P control_ok _ _ _ _ _ E).
    apply IH. cbn [env]. intro Hs. apply Hn. cbn. now rewrite E.
Qed.

Lemma run_steps_succeed_result (jc : string) (run_id : Z) (lit : string)
    (steps : list StepRow) :
  forall w : World,
    steps_succeed P lit steps (env w) ->
    fst (run_steps P jc run_id lit steps w) = inr tt.
Proof.
  induction steps as [|st steps IH]; intros w Hs; [reflexivity|].
  destruct Hs as [E Hs]. cbn [run_steps]. unfold bind.
  rewrite (run_step_success P control_ok _ _ _ _ _ E). now apply IH.
Qed.

(** X11. A run that returns normally is a run all of whose steps
    succeeded: the job had at least one step, the SQL of every step
    succeeded, and what is returned is the success text.  A failed step or an
    unknown job is never reported as a success. *)
Theorem success_only_if_all_steps_succeeded (job_code conn_id : string) (w : World)
    (msg : string) :
  PyStr.all_space job_code = false ->
  connection_opens P conn_id ->
  cursor_fault P (env w) = None ->
  let jc := PyStr.strip job_code in
  let batch_ts := replace_microsecond_0 (utc_now P (env w)) in
  fst (run_etl_job P job_code conn_id w) = inr msg ->
  steps_of jc w <> []
  /\ steps_succeed P (isoformat " " batch_ts) (steps_of jc w) (env w)
  /\ msg = success_message jc (seq w) batch_ts.
Proof.
  intros Hjc Hconn Hcur jc batch_ts Hres.
  destruct (run_etl_job_connected P job_code conn_id w Hjc Hconn Hcur) as [args Hrun].
  rewrite Hrun in Hres. cbn [fst] in Hres. fold jc batch_ts in Hres.
  set (w1 := session_opened args w) in *.
  assert (Hsteps : steps_of jc w <> []).
  { intro Hnil. unfold run_job_body, bind in Hres.
    rewrite (fetch_count_ok P control_ok) in Hres.
    change (master w1) with (master w) in Hres.
    unfold steps_of in Hnil. apply (f_equal (@List.length _)) in Hnil.
    rewrite length_order_by_step_number in Hnil. rewrite Hnil in Hres.
    discriminate. }
  split; [exact Hsteps|].
  rewrite (run_job_body_known_job P control_ok) in Hres by exact Hsteps.
  change (steps_of jc w1) with (steps_of jc w) in Hres.
  change (seq w1) with (seq w) in Hres.
  unfold bind in Hres.
  destruct (steps_succeed_dec (isoformat " " batch_ts) (steps_of jc w) (env w)) as [Hs|Hn].
  - split; [exact Hs|].
    match type of Hres with context [run_steps P jc ?rid ?lit ?steps ?w2] =>
      pose proof (run_steps_succeed_result jc rid lit steps w2 Hs) as Hok;
      destruct (run_steps P jc rid lit steps w2) as [[e0|[]] w3]
    end; cbn in *; [discriminate | now injection Hres as <-].
  - match type of Hres with context [run_steps P jc ?rid ?lit ?steps ?w2] =>
      destruct (run_steps_not_succeed jc rid lit steps w2 Hn) as [e He];
      destruct (run_steps P jc rid lit steps w2) as [[e0|[]] w3]
    end; cbn in *; discriminate.
Qed.

(** X12. The steps a run starts are the first steps of the job, in
    ascending order of step number and without a gap, up to and including
    the first step whose SQL fails: when every step succeeds all steps are
    started, and when a step fails after the steps before it succeeded, that
    step is the last one started and no later step is. *)
Theorem steps_start_in_ascending_order (job_code conn_id : string) (w : World) :
  PyStr.all_space job_code = false ->
  connection_opens P conn_id ->
  cursor_fault P (env w) = None ->
  let jc := PyStr.strip job_code in
  let lit := isoformat " " (replace_microsecond_0 (utc_now P (env w))) in
  exists k,
    audit_inserts (trace (snd (run_etl_job P job_code conn_id w)))
    = (audit_inserts (trace w) ++ map (pair (seq w)) (firstn k (steps_of jc w)))%list
    /\ Sorted step_le (steps_of jc w)
    /\ (steps_succeed P lit (steps_of jc w) (env w) ->
        k = List.length (steps_of jc w))
    /\ (forall pre st post e,
          steps_of jc w = (pre ++ st :: post)%list ->
          steps_succeed P lit pre (env w) ->
          fst (step_sql_outcome P lit st (env_after P lit pre (env w))) = Some e ->
          k = S (List.length pre)).
Proof.
  intros Hjc Hconn Hcur jc lit.
  destruct (run_etl_job_started_steps P control_ok job_code conn_id w Hjc Hconn Hcur)
    as (k & Hi & _ & Hall & Hfirst).
  exists k.
  split; [exact Hi | split; [apply order_by_step_number_sorted | split]].
  - exact Hall.
  - exact Hfirst.
Qed.

End WithControl.

(** *** Connection resolution and the session *)

(** X13. Whenever connection resolution calls the driver, the account it
    passes is the one under [account] in the Extra JSON if that is not empty
    and the Host field otherwise; it is never the empty text.  User and
    password are the record's login and password, and warehouse, database,
    schema and role are what Extra holds under those keys, absent keys being
    passed as [None]. *)
Theorem driver_gets_account_from_extra_then_host (conn_id : string) (w : World) :
  exists evs,
    trace (snd (_get_snowflake_connection P conn_id w)) = (trace w ++ evs)%list
    /\ forall args,
         In (EvConnect args) evs ->
         exists c,
           get_connection P conn_id = inr c
           /\ Some (ca_account args)
              = (if truthy (dict_get (extra c) "account")
                 then dict_get (extra c) "account" else host c)
           /\ PyStr.is_empty (ca_account args) = false
           /\ (ca_user args, ca_password args) = (login c, password c)
           /\ (ca_warehouse args, ca_database args, ca_schema args, ca_role args)
              = (dict_get (extra c) "warehouse", dict_get (extra c) "database",
                 dict_get (extra c) "schema", dict_get (extra c) "role").
Proof.
  unfold _get_snowflake_connection.
  destruct (get_connection P conn_id) as [e|c] eqn:Hc.
  { exists []. cbn. rewrite app_nil_r. split; [reflexivity | intros args []]. }
  unfold py_or.
  destruct (truthy (dict_get (extra c) "account")) eqn:Hx.
  - destruct (dict_get (extra c) "account") as [a|] eqn:Ha; [|discriminate].
    cbn [truthy] in Hx |- *. rewrite Hx. cbn [negb].
    eexists. split; [unfold call; destruct (connect P _); reflexivity|].
    intros args [[= <-]|[]]. exists c. cbn. rewrite Ha.
    assert (Hne : PyStr.is_empty a = false) by now apply negb_true_iff.
    cbn [truthy]. rewrite Hne. cbn [negb]. now repeat split.
  - destruct (host c) as [h|] eqn:Hh; cbn [truthy negb].
    + destruct (PyStr.is_empty h) eqn:Hne; cbn [negb].
      * exists []. cbn. rewrite app_nil_r. split; [reflexivity | intros args []].
      * eexists. split; [unfold call; destruct (connect P _); reflexivity|].
        intros args [[= <-]|[]]. exists c. unfold connect_args.
        cbn [ca_account ca_user ca_password ca_warehouse ca_database ca_schema ca_role].
        rewrite Hx. now repeat split.
    + exists []. cbn. rewrite app_nil_r. split; [reflexivity | intros args []].
Qed.

(** X14. A run that does not get its session touches none: when the
    connection record is unknown, has no account, or the driver refuses to
    connect, the run raises and has created no cursor, sent no statement and
    called no [close]. *)
Theorem no_session_no_cursor_no_close (job_code conn_id : string) (w : World) :
  ~ connection_opens P conn_id ->
  exists e evs,
    fst (run_etl_job P job_code conn_id w) = inl e
    /\ trace (snd (run_etl_job P job_code conn_id w)) = (trace w ++ evs)%list
    /\ Forall (fun ev => ev = EvNow \/ exists args, ev = EvConnect args) evs.
Proof.
  intro Hno. unfold run_etl_job.
  assert (Hnow : Forall (fun ev => ev = EvNow \/ exists args, ev = EvConnect args)
                   [EvNow]) by (constructor; [now left | constructor]).
  destruct (_ || _).
  { eexists. exists []. cbn. rewrite app_nil_r.
    split; [reflexivity | split; [reflexivity | constructor]]. }
  unfold bind at 1, datetime_now_utc. unfold bind at 1, _get_snowflake_connection.
  cbn [env emit].
  destruct (get_connection P conn_id) as [e|c] eqn:Hc.
  { eexists. exists [EvNow]. split; [reflexivity | split; [reflexivity | exact Hnow]]. }
  destruct (py_or (dict_get (extra c) "account") (host c)) as [a|] eqn:Ha;
    cbn [truthy negb].
  - destruct (PyStr.is_empty a) eqn:Hne; cbn [negb].
    { eexists. exists [EvNow]. split; [reflexivity | split; [reflexivity | exact Hnow]]. }
    unfold call. destruct (connect P (connect_args c a)) as [e|] eqn:Hopen.
    + eexists. exists [EvNow; EvConnect (connect_args c a)]. cbn.
      split; [reflexivity | split; [now rewrite <- app_assoc|]].
      constructor; [now left|]. constructor; [right; now eexists | constructor].
    + exfalso. apply Hno. now exists c, a.
  - eexists. exists [EvNow]. split; [reflexivity | split; [reflexivity | exact Hnow]].
Qed.

End MoreRunnerFacts.

(** ** The DAG *)

Lemma before_trans (order : list string) (a b c : string) :
  Dag.before order a b = true -> Dag.before order b c = true ->
  Dag.before order a c = true.
Proof.
  unfold Dag.before.
  destruct (Dag.position order a), (Dag.position order b), (Dag.position order c);
    try discriminate.
  rewrite !Nat.ltb_lt. lia.
Qed.

(** X16. In every order of execution that respects the dependencies the
    DAG declares, JOB_03 runs before JOB_04 and JOB_04 before JOB_02, and
    JOB_07 and JOB_08 each run after every one of the six other jobs. *)
Theorem final_jobs_run_after_all_others (order : list string) :
  Dag.admissible order = true ->
  Dag.before order "JOB_03" "JOB_04" = true
  /\ Dag.before order "JOB_04" "JOB_02" = true
  /\ forall job final,
       In job ["JOB_01"; "JOB_02"; "JOB_03"; "JOB_04"; "JOB_05"; "JOB_06"] ->
       In final ["JOB_07"; "JOB_08"] ->
       Dag.before order job final = true.
Proof.
  unfold Dag.admissible. cbn [Dag.edges Dag.chain Dag.fan_in Dag.upstream Dag.downstream
                              flat_map map app forallb fst snd].
  rewrite !andb_true_iff.
  intros (H34 & H42 & H17 & H18 & H57 & H58 & H67 & H68 & H27 & H28 & _).
  split; [exact H34 | split; [exact H42|]].
  pose proof (before_trans order _ _ _ H42 H27) as H47.
  pose proof (before_trans order _ _ _ H42 H28) as H48.
  pose proof (before_trans order _ _ _ H34 H47) as H37.
  pose proof (before_trans order _ _ _ H34 H48) as H38.
  intros job final Hj Hf. cbn [In] in Hj, Hf.
  destruct Hf as [<-|[<-|[]]];
    destruct Hj as [<-|[<-|[<-|[<-|[<-|[<-|[]]]]]]]; assumption.
Qed.

(** X17. Every task of the DAG calls the runner with its own job code
    and the connection id [snowflake_adwbi]; the job code passes the runner's
    guard and is used as it stands: the run reads the clock and every query
    and audit write of the run carries exactly the task's job code. *)
Theorem dag_tasks_run_their_own_job {Env : Type} (P : Platform Env) (w : World Env)
    (key : string) (t : Dag.Task) :
  In (key, t) Dag.tasks ->
  Dag.kw_job_code t = key
  /\ Dag.kw_snowflake_conn_id t = "snowflake_adwbi"
  /\ exists evs,
       trace (snd (run_etl_job P (Dag.kw_job_code t) (Dag.kw_snowflake_conn_id t) w))
       = (trace w ++ EvNow :: evs)%list
       /\ Forall (carries_job_code key) evs.
Proof.
  intro Hin.
  assert (Hkey : Dag.kw_job_code t = key /\ Dag.kw_snowflake_conn_id t = "snowflake_adwbi"
                 /\ PyStr.all_space key = false /\ PyStr.strip key = key).
  { cbn in Hin.
    repeat (destruct Hin as [[= <- <-]|Hin]; [repeat split|]).
    destruct Hin. }
  destruct Hkey as (Hk & Hc & Hjc & Hstrip).
  split; [exact Hk | split; [exact Hc|]]. rewrite Hk.
  assert (Hbody : forall lit ev,
             body_event key lit (steps_of key w) ev -> carries_job_code key ev).
  { intros lit [| | |[]| | | |]; cbn; try tauto; apply steps_of_job_code. }
  destruct (run_etl_job_shape P key (Dag.kw_snowflake_conn_id t) w Hjc)
    as [Ht | [(args & Ht) | [(args & Ht) | (args & evs & Ht & Hq)]]]; rewrite Ht.
  - exists []. split; [reflexivity | constructor].
  - exists [EvConnect args]. split; [reflexivity | repeat constructor].
  - exists [EvConnect args; EvCursor]. split; [reflexivity | repeat constructor].
  - eexists. split; [reflexivity|].
    do 2 (constructor; [exact I|]).
    apply Forall_app. split; [|repeat constructor].
    rewrite Hstrip in Hq. eapply Forall_impl; [apply Hbody | exact Hq].
Qed.

(** ** The further properties on the concrete deployments *)

Lemma run_only_appends_its_own_rows_witness :
  exists rows,
    audit (snd (run_etl_job (Scenario.platform true) "JOB_03" "snowflake_adwbi"
                  Scenario.world0)) = rows
    /\ Forall (fun r => a_run_id r = 100%Z) rows.
Proof.
  apply (run_only_appends_its_own_rows (Scenario.platform true) "JOB_03"
           "snowflake_adwbi" Scenario.world0).
  apply Forall_nil.
Defined.

Lemma run_id_is_not_given_back_witness :
  seq (snd (run_etl_job (Scenario.platform true) "JOB_03" "snowflake_adwbi"
              Scenario.world0)) = 101%Z.
Proof.
  apply (run_id_is_not_given_back (Scenario.platform true) "JOB_03" "snowflake_adwbi"
           Scenario.world0).
  - reflexivity.
  - apply scenario_connection_opens.
  - reflexivity.
  - reflexivity.
  - reflexivity.
  - discriminate.
Defined.

Lemma step_without_sql_succeeds_witness :
  fst (run_step (Scenario.platform true) "JOB_01" 100 "2026-01-05 07:30:00+00:00"
         Scenario.mark_done Scenario.world0) = inr tt
  /\ env (snd (run_step (Scenario.platform true) "JOB_01" 100
                 "2026-01-05 07:30:00+00:00" Scenario.mark_done Scenario.world0))
     = 0%nat.
Proof.
  destruct (step_without_sql_succeeds (Scenario.platform true) "JOB_01" 100
              "2026-01-05 07:30:00+00:00" Scenario.mark_done Scenario.world0)
    as (Hres & Henv & _).
  - apply scenario_control_ok.
  - reflexivity.
  - split; [exact Hres | exact Henv].
Defined.

Lemma refused_insert_stops_the_step_witness :
  run_step (FaultyScenario.platform FaultyScenario.is_insert) "JOB_01" 100
    "2026-01-05 07:30:00+00:00" Scenario.load_t Scenario.world0
  = (inl FaultyScenario.refusal,
     emit (EvExecute (InsAudit 100 Scenario.load_t)) Scenario.world0).
Proof.
  apply (refused_insert_stops_the_step
           (FaultyScenario.platform FaultyScenario.is_insert) "JOB_01" 100
           "2026-01-05 07:30:00+00:00" Scenario.load_t Scenario.world0
           FaultyScenario.refusal).
  reflexivity.
Defined.

Lemma refused_success_update_fails_the_step_witness :
  fst (run_step (FaultyScenario.platform FaultyScenario.is_success_update) "JOB_01" 100
         "2026-01-05 07:30:00+00:00" Scenario.load_t Scenario.world0)
  = inl (mkExn RuntimeError
           "JOB FAILED | JOB=JOB_01 | RUN_ID=100 | STEP=1 | DESC=load T | ERROR=Insufficient privileges on the audit table")
  /\ env (snd (run_step (FaultyScenario.platform FaultyScenario.is_success_update)
                 "JOB_01" 100 "2026-01-05 07:30:00+00:00" Scenario.load_t
                 Scenario.world0)) = 1%nat.
Proof.
  destruct (refused_success_update_fails_the_step
              (FaultyScenario.platform FaultyScenario.is_success_update) "JOB_01" 100
              "2026-01-05 07:30:00+00:00" Scenario.load_t Scenario.world0
              FaultyScenario.refusal)
    as (Hres & Henv & _).
  - reflexivity.
  - reflexivity.
  - reflexivity.
  - reflexivity.
  - split; [exact Hres | exact Henv].
Defined.

Lemma refused_failed_update_masks_the_error_witness :
  fst (run_step (FaultyScenario.platform FaultyScenario.is_failed_update) "JOB_03" 100
         "2026-01-05 07:30:00+00:00" Scenario.merge Scenario.world0)
  = inl FaultyScenario.refusal
  /\ audit (snd (run_step (FaultyScenario.platform FaultyScenario.is_failed_update)
                   "JOB_03" 100 "2026-01-05 07:30:00+00:00" Scenario.merge
                   Scenario.world0))
     = [started_record 0 100 Scenario.merge].
Proof.
  destruct (refused_failed_update_masks_the_error
              (FaultyScenario.platform FaultyScenario.is_failed_update) "JOB_03" 100
              "2026-01-05 07:30:00+00:00" Scenario.merge Scenario.world0
              (mkExn DriverError "SQL compilation error: NO_SUCH_TABLE does not exist")
              FaultyScenario.refusal)
    as (Hres & _ & Haudit).
  - reflexivity.
  - reflexivity.
  - reflexivity.
  - split; [exact Hres | exact Haudit].
Defined.

Lemma fetch_steps_sorted_rows_of_job_witness :
  exists steps,
    _fetch_steps (Scenario.platform true) "JOB_03" Scenario.world0
    = (inr steps, emit (EvExecute (SelSteps "JOB_03")) Scenario.world0)
    /\ Permutation steps [Scenario.publish; Scenario.stage; Scenario.merge]
    /\ Sorted step_le steps.
Proof.
  destruct (fetch_steps_sorted_rows_of_job (Scenario.platform true) "JOB_03"
              Scenario.world0)
    as (steps & Hres & Hperm & Hsorted & _).
  - reflexivity.
  - exists steps. split; [exact Hres | split; [exact Hperm | exact Hsorted]].
Defined.

Lemma success_only_if_all_steps_succeeded_witness :
  steps_succeed (Scenario.platform true) "2026-01-05 07:30:00+00:00"
    [Scenario.load_t; Scenario.mark_done] 0%nat.
Proof.
  destruct (success_only_if_all_steps_succeeded (Scenario.platform true)
              (scenario_control_ok true) " JOB_01 " "snowflake_adwbi" Scenario.world0
              "SUCCESS: JOB_CODE=JOB_01, RUN_ID=100, BATCH_TS=2026-01-05T07:30:00+00:00")
    as (_ & Hs & _).
  - reflexivity.
  - apply scenario_connection_opens.
  - reflexivity.
  - reflexivity.
  - exact Hs.
Defined.

Lemma steps_start_in_ascending_order_witness :
  audit_inserts (trace (snd (run_etl_job (Scenario.platform true) "JOB_03"
                               "snowflake_adwbi" Scenario.world0)))
  = [(100%Z, Scenario.stage); (100%Z, Scenario.merge)].
Proof.
  destruct (steps_start_in_ascending_order (Scenario.platform true)
              (scenario_control_ok true) "JOB_03" "snowflake_adwbi" Scenario.world0)
    as (k & Hstarted & _ & _ & Hfirst).
  - reflexivity.
  - apply scenario_connection_opens.
  - reflexivity.
  - rewrite (Hfirst [Scenario.stage] Scenario.merge [Scenario.publish]
               (mkExn DriverError "SQL compilation error: NO_SUCH_TABLE does not exist"))
      in Hstarted.
    + exact Hstarted.
    + reflexivity.
    + vm_compute. repeat split.
    + reflexivity.
Defined.

Lemma no_session_no_cursor_no_close_witness :
  exists e evs,
    fst (run_etl_job (Scenario.platform true) "JOB_01" "snowflake_draft" Scenario.world0)
    = inl e
    /\ trace (snd (run_etl_job (Scenario.platform true) "JOB_01" "snowflake_draft"
                     Scenario.world0)) = evs
    /\ Forall (fun ev => ev = EvNow \/ exists args, ev = EvConnect args) evs.
Proof.
  apply (no_session_no_cursor_no_close (Scenario.platform true) "JOB_01"
           "snowflake_draft" Scenario.world0).
  intros (c & a & Hc & Ha & Hne & _).
  injection Hc as <-. vm_compute in Ha. injection Ha as <-. discriminate.
Defined.

Lemma final_jobs_run_after_all_others_witness :
  Dag.before ["JOB_03"; "JOB_01"; "JOB_04"; "JOB_06"; "JOB_02"; "JOB_05"; "JOB_08"; "JOB_07"]
    "JOB_03" "JOB_07" = true.
Proof.
  destruct (final_jobs_run_after_all_others
              ["JOB_03"; "JOB_01"; "JOB_04"; "JOB_06"; "JOB_02"; "JOB_05"; "JOB_08"; "JOB_07"])
    as (_ & _ & Hlast).
  - reflexivity.
  - apply Hlast; cbn; auto 10.
Defined.

Lemma dag_tasks_run_their_own_job_witness :
  exists evs,
    trace (snd (run_etl_job (Scenario.platform true) "JOB_03" "snowflake_adwbi"
                  Scenario.world0)) = EvNow :: evs
    /\ Forall (carries_job_code "JOB_03") evs.
Proof.
  destruct (dag_tasks_run_their_own_job (Scenario.platform true) Scenario.world0
              "JOB_03" (Dag.mkTask "run_job_03" "JOB_03" "snowflake_adwbi"))
    as (_ & _ & H).
  - cbn. right. right. left. reflexivity.
  - exact H.
Defined.
